(** * Metropolis lattice-gas alloy: a shallow embedding of [alloy_generator.py]

    The development follows the Python module function by function:
    [Create_alloy], [MC_swap], [nCr] and [test2D].

    Conventions of the embedding.
    - The lattice is a NumPy array of shape (N, N) holding the floats 0.0 and
      1.0.  Every value that ever appears in it, and every sum of four of
      them, is a small integer, which binary64 represents exactly; cells are
      therefore integers ([Z]) and the array is a list of rows.
    - Indexing follows NumPy: an index [k] on an axis of length [len] is valid
      for [-len <= k < len], negative indices count from the end, anything
      else raises [IndexError].  A raised exception is [None].
    - The energies [E], [e], the temperature [T] and the fraction [Xa] are
      Python floats; they are idealised as exact rationals ([Q]).  The
      exponential [np.exp] is a parameter of the development.  Line 26,
      where rounding decides how many cells are built, is also given in
      IEEE 754 binary64 ([initial_alloy_binary64]), and so is the product
      [kT] of line 45 ([kT_binary64]), which can underflow to zero.
    - The process-wide random generator is made explicit: the values drawn by
      one call of [MC_swap] are a record [draws], the stream of draws of the
      driver loop is a function of the iteration number, and
      [np.random.permutation] is a function on lists. *)

From Stdlib Require Import ZArith QArith Qround Lia Permutation.
From Stdlib Require SpecFloat.
From Stdlib Require Import Qpower.
From stdpp Require Import base option list list_numbers.

Local Open Scope Z_scope.

(** ** NumPy primitives *)

Module np.

(** Normalisation of one index against an axis of length [len]. *)
Definition index (len k : Z) : option nat :=
  if decide (0 ≤ k < len) then Some (Z.to_nat k)
  else if decide (- len ≤ k < 0) then Some (Z.to_nat (k + len))
  else None.

(** [a[r, c]] *)
Definition getitem (a : list (list Z)) (r c : Z) : option Z :=
  i ← index (Z.of_nat (length a)) r;
  row ← a !! i;
  j ← index (Z.of_nat (length row)) c;
  row !! j.

(** [a[r, c] = v] *)
Definition setitem (a : list (list Z)) (r c v : Z) : option (list (list Z)) :=
  i ← index (Z.of_nat (length a)) r;
  row ← a !! i;
  j ← index (Z.of_nat (length row)) c;
  Some (<[i := <[j := v]> row]> a).

(** [h[k]] and [h[k] = v] on a one-dimensional array. *)
Definition getitem1 (h : list Z) (k : Z) : option Z :=
  i ← index (Z.of_nat (length h)) k; h !! i.

Definition setitem1 (h : list Z) (k v : Z) : option (list Z) :=
  i ← index (Z.of_nat (length h)) k; Some (<[i := v]> h).

(** [np.ones(n)], [np.zeros(n)]: a negative length raises [ValueError]. *)
Definition ones (n : Z) : option (list Z) :=
  if decide (n < 0) then None else Some (replicate (Z.to_nat n) 1).

Definition zeros (n : Z) : option (list Z) :=
  if decide (n < 0) then None else Some (replicate (Z.to_nat n) 0).

(** Row-major split of a flat buffer into [rows] rows of [cols] cells. *)
Fixpoint split_rows (rows cols : nat) (flat : list Z) : list (list Z) :=
  match rows with
  | O => []
  | S rows' => take cols flat :: split_rows rows' cols (drop cols flat)
  end.

(** [flat.reshape(N, N)]: raises [ValueError] unless the buffer holds exactly
    [N * N] cells. *)
Definition reshape (flat : list Z) (N : Z) : option (list (list Z)) :=
  if decide (0 ≤ N ∧ Z.of_nat (length flat) = N * N)
  then Some (split_rows (Z.to_nat N) (Z.to_nat N) flat)
  else None.

(** [np.flip(h)] and the element-wise sum of two arrays of equal length. *)
Definition flip (h : list Z) : list Z := reverse h.

Definition add (h1 h2 : list Z) : list Z := zip_with Z.add h1 h2.

End np.

(** ** Rational comparisons used by the branches of the code *)

Definition Qlt_bool (x y : Q) : bool := negb (Qle_bool y x).

(** [int(x)] on a float: truncation towards zero. *)
Definition int (x : Q) : Z := Z.quot (Qnum x) (Z.pos (Qden x)).

(** ** Python floats as IEEE 754 binary64 values *)

Module binary64.

Import SpecFloat.

Definition prec : Z := 53.
Definition emax : Z := 1024.

(** [float(z)]: the integer rounded to the nearest float. *)
Definition float (z : Z) : spec_float := binary_normalize prec emax z 0 false.

Definition mul : spec_float → spec_float → spec_float := SFmul prec emax.
Definition sub : spec_float → spec_float → spec_float := SFsub prec emax.
Definition div : spec_float → spec_float → spec_float := SFdiv prec emax.

(** [int(x)]: truncation towards zero; raises on an infinity or a NaN. *)
Definition int (x : spec_float) : option Z :=
  match x with
  | S754_zero _ => Some 0
  | S754_finite s m e =>
      let a := if 0 <=? e then Z.pos m * 2 ^ e else Z.pos m / 2 ^ (- e) in
      Some (if s then - a else a)
  | _ => None
  end.

(** The literals [0.5] and [0.57]. *)
Definition half : spec_float := binary_normalize prec emax 1 (-1) false.
Definition dot57 : spec_float := div (float 57) (float 100).

End binary64.

(** Line 26 in binary64: [n_a, n_b = int(N**2*Xa), int(N**2*(1-Xa))]. *)
Definition atom_counts_binary64 (N : Z) (Xa : SpecFloat.spec_float)
  : option (Z * Z) :=
  n_a ← binary64.int (binary64.mul (binary64.float (N ^ 2)) Xa);
  n_b ← binary64.int (binary64.mul (binary64.float (N ^ 2))
                        (binary64.sub (binary64.float 1) Xa));
  Some (n_a, n_b).

(** Python's [range(n)]. *)
Definition range (n : Z) : list Z := seqZ 0 n.

(** A [for] loop whose body may raise. *)
Fixpoint for_in {A S : Type} (l : list A) (body : A → S → option S) (s : S)
  : option S :=
  match l with
  | [] => Some s
  | i :: l' => s' ← body i s; for_in l' body s'
  end.

(** ** The values drawn from the random generator by one [MC_swap] *)

Record draws := Draws {
  random_atom : Z * Z;      (* np.random.randint(0, N, 2) *)
  random_neighbour : Z;     (* np.random.randint(1, 5, 1) *)
  uniform : Q               (* np.random.uniform(0, 1), read only if e >= 0 *)
}.

(** What the generator guarantees about the draws. *)
Definition valid_draws (N : Z) (d : draws) : Prop :=
  0 ≤ (random_atom d).1 < N ∧ 0 ≤ (random_atom d).2 < N ∧
  1 ≤ random_neighbour d < 5 ∧
  (0 <= uniform d)%Q ∧ (uniform d < 1)%Q.

(** Boltzmann constant in eV/K, [8.617332*10**-5]. *)
Definition k_B : Q := ((8617332 # 1000000) * (1 # 100000))%Q.

(** ** MC_swap *)

(** Lines 51-62: the neighbour selected for the swap. *)
Definition select_neighbour (N : Z) (d : draws) : Z * Z :=
  if random_neighbour d =? 1 then (((random_atom d).1 - 2) mod N, (random_atom d).2)
  else if random_neighbour d =? 2 then ((random_atom d).1, (random_atom d).2 mod N)
  else if random_neighbour d =? 3 then ((random_atom d).1 mod N, (random_atom d).2)
  else ((random_atom d).1, ((random_atom d).1 - 2) mod N).

(** Lines 70-82: the coordinates read around a site, and the sum of the four
    cells found there, in the order the code adds them. *)
Definition bond_sites (N r c : Z) : list (Z * Z) :=
  let up := (r - 2) mod N in
  let down := r mod N in
  let left := (c - 2) mod N in
  let right := c mod N in
  [(down, c); (up, c); (r, right); (r, left)].

Definition Bonds (alloy : list (list Z)) (N r c : Z) : option Z :=
  let up := (r - 2) mod N in
  let down := r mod N in
  let left := (c - 2) mod N in
  let right := c mod N in
  a ← np.getitem alloy down c;
  b ← np.getitem alloy up c;
  x ← np.getitem alloy r right;
  y ← np.getitem alloy r left;
  Some (a + b + x + y).

(** Lines 65-95: the energy difference of the candidate swap. *)
Definition energy (alloy : list (list Z)) (N : Z) (E : Q)
    (site1 site2 : Z * Z) (atom1 atom2 : Z) : option Q :=
  if atom1 =? atom2 then Some 0%Q
  else
    Bonds1 ← Bonds alloy N site1.1 site1.2;
    Bonds2 ← Bonds alloy N site2.1 site2.2;
    let '(Initial1, End1, Initial2, End2) :=
      if atom1 =? 0 then (Bonds1, 4 - Bonds1, 4 - Bonds2, Bonds2)
      else (4 - Bonds1, Bonds1, Bonds2, 4 - Bonds2) in
    Some (E * inject_Z (End1 + End2 - Initial1 - Initial2))%Q.

(** Lines 98-99 and 101-102: the two assignments of an accepted swap. *)
Definition exchange (alloy : list (list Z)) (site1 site2 : Z * Z)
    (atom1 atom2 : Z) : option (list (list Z)) :=
  alloy1 ← np.setitem alloy site1.1 site1.2 atom2;
  np.setitem alloy1 site2.1 site2.2 atom1.

Section MonteCarlo.

(** [np.exp] on floats. *)
Variable np_exp : Q → Q.

(** One Metropolis step.  [randint(0, N, 2)] raises when [N <= 0].  When
    [kT] is 0.0 and the test [e < 0] has failed: with equal atoms [e] is the
    integer 0 and Python raises [ZeroDivisionError] on [-e/kT]; with unlike
    atoms [e] is a NumPy float, the quotient [-e/kT] is minus infinity or a
    NaN, [np.exp] gives 0.0 or a NaN, the comparison with the draw is false
    and the lattice is returned as it is.  The product [k_B * T] is exact
    here; in binary64 it underflows to 0.0 for [0 < T] below about 2.9e-320
    ([kT_binary64]), where the code follows the branch of [kT = 0]. *)
Definition MC_swap (alloy : list (list Z)) (N : Z) (E T : Q) (d : draws)
  : option (list (list Z)) :=
  let kT := (k_B * T)%Q in
  if decide (N ≤ 0) then None
  else
    atom1 ← np.getitem alloy (random_atom d).1 (random_atom d).2;
    let site2 := select_neighbour N d in
    atom2 ← np.getitem alloy site2.1 site2.2;
    e ← energy alloy N E (random_atom d) site2 atom1 atom2;
    if Qlt_bool e 0 then exchange alloy (random_atom d) site2 atom1 atom2
    else if Qeq_bool kT 0 then
      (if atom1 =? atom2 then None else Some alloy)
    else if Qlt_bool (uniform d) (np_exp (- e / kT)) then
      exchange alloy (random_atom d) site2 atom1 atom2
    else Some alloy.

(** ** Create_alloy *)

(** [np.random.permutation] and the draws of iteration [i] of the loop. *)
Variable permutation : list Z → list Z.
Variable rng : nat → draws.

(** Lines 28-29: [for i in range(n): alloy = MC_swap(alloy, N, E, T)]. *)
Fixpoint swap_loop (steps i : nat) (alloy : list (list Z)) (N : Z) (E T : Q)
  : option (list (list Z)) :=
  match steps with
  | O => Some alloy
  | S steps' =>
      alloy' ← MC_swap alloy N E T (rng i);
      swap_loop steps' (S i) alloy' N E T
  end.

(** Line 27: the shuffled buffer of [n_a] ones and [n_b] zeros, reshaped. *)
Definition random_matrix (N n_a n_b : Z) : option (list (list Z)) :=
  ones ← np.ones n_a;
  zeros ← np.zeros n_b;
  np.reshape (permutation (ones ++ zeros)) N.

(** Lines 26-27: the initial random matrix, the two products of line 26
    being exact; [initial_alloy_binary64] below rounds them as the code
    does, and the two agree wherever the products are exact in binary64. *)
Definition initial_alloy (N : Z) (Xa : Q) : option (list (list Z)) :=
  let n_a := int (inject_Z (N ^ 2) * Xa)%Q in
  let n_b := int (inject_Z (N ^ 2) * (1 - Xa))%Q in
  random_matrix N n_a n_b.

(** The same two lines with [Xa] a binary64 float. *)
Definition initial_alloy_binary64 (N : Z) (Xa : SpecFloat.spec_float)
  : option (list (list Z)) :=
  counts ← atom_counts_binary64 N Xa;
  random_matrix N counts.1 counts.2.

Definition Create_alloy (N : Z) (Xa : Q) (n : Z) (T E : Q)
  : option (list (list Z)) :=
  alloy ← initial_alloy N Xa;
  swap_loop (Z.to_nat n) 0 alloy N E T.

End MonteCarlo.

(** ** nCr and test2D *)

(** [math.factorial] raises on a negative argument. *)
Definition factorial (n : Z) : option Z :=
  if decide (n < 0) then None else Some (Z.of_nat (fact (Z.to_nat n))).

Definition nCr (n r : Z) : option Z :=
  fn ← factorial n; fr ← factorial r; fnr ← factorial (n - r);
  Some (fn / fr / fnr).

(** Lines 120-130: the body of the double loop, for the site [(i, j)]; the
    state is the pair of tallies [(n_a, n_b)].  In [i - 2 % N] the operator
    [%] binds tighter than [-]. *)
Definition tally (alloy : list (list Z)) (N i j : Z) (st : list Z * list Z)
  : option (list Z * list Z) :=
  let up := i - 2 mod N in
  let down := i mod N in
  let left := j - 2 mod N in
  let right := j mod N in
  a ← np.getitem alloy down j;
  b ← np.getitem alloy up j;
  x ← np.getitem alloy i right;
  y ← np.getitem alloy i left;
  let bond := a + b + x + y in
  v ← np.getitem alloy i j;
  if v =? 0 then
    old ← np.getitem1 st.1 bond;
    n_a ← np.setitem1 st.1 bond (old + 1);
    Some (n_a, st.2)
  else
    old ← np.getitem1 st.2 bond;
    n_b ← np.setitem1 st.2 bond (old + 1);
    Some (st.1, n_b).

(** Lines 116-132: the observed histogram [n]. *)
Definition scan (alloy : list (list Z)) (N : Z) : option (list Z * list Z) :=
  for_in (range N)
    (λ i st, for_in (range N) (λ j st', tally alloy N i j st') st)
    (replicate 5 0, replicate 5 0).

Definition observed (alloy : list (list Z)) (N : Z) : option (list Z) :=
  st ← scan alloy N;
  Some (np.add st.1 (np.flip st.2)).

(** Lines 135-138: the binomial histogram [prob]. *)
Definition Frac (Xa : Q) (i : Z) : Q :=
  (Xa * Xa ^ (4 - i) * (1 - Xa) ^ i + (1 - Xa) * Xa ^ i * (1 - Xa) ^ (4 - i))%Q.

Definition prob_entry (Xa : Q) (N i : Z) : option Q :=
  Con ← nCr 4 i;
  Some (inject_Z Con * Frac Xa i * inject_Z (Z.abs N) ^ 2)%Q.

Definition prob (Xa : Q) (N : Z) : option (list Q) :=
  mapM (prob_entry Xa N) (range 5).

(** ** Shape, contents and counts of a lattice *)

(** An array of shape (N, N). *)
Definition square (N : Z) (alloy : list (list Z)) : Prop :=
  Z.of_nat (length alloy) = N ∧
  Forall (λ row, Z.of_nat (length row) = N) alloy.

(** Every cell is B (0) or A (1). *)
Definition binary (alloy : list (list Z)) : Prop :=
  Forall (Forall (λ v, v = 0 ∨ v = 1)) alloy.

Definition indicator (v x : Z) : nat := if decide (x = v) then 1%nat else 0%nat.

Definition count_row (v : Z) (row : list Z) : nat :=
  sum_list_with (indicator v) row.

(** Number of cells of the lattice holding [v]. *)
Definition count_cells (v : Z) (alloy : list (list Z)) : nat :=
  sum_list_with (count_row v) alloy.

(** Sum of the entries of a histogram. *)
Definition total (h : list Z) : Z := foldr Z.add 0 h.

(** A site coordinate of the N x N torus. *)
Definition on_lattice (N : Z) (s : Z * Z) : Prop :=
  0 ≤ s.1 < N ∧ 0 ≤ s.2 < N.

(** Sum of the entries of a float histogram. *)
Definition Qtotal (h : list Q) : Q := foldr Qplus 0%Q h.

(** The cell of an array of shape (N, N) that a pair of indices denotes. *)
Definition resolve (N : Z) (s : Z * Z) : option (nat * nat) :=
  i ← np.index N s.1; j ← np.index N s.2; Some (i, j).

(** The four index pairs read around the site [(i, j)] by the scan of
    [test2D] (lines 121-126), in the order of [bond_sites]. *)
Definition scan_sites (N i j : Z) : list (Z * Z) :=
  let up := i - 2 mod N in
  let down := i mod N in
  let left := j - 2 mod N in
  let right := j mod N in
  [(down, j); (up, j); (i, right); (i, left)].

(** All sites of the lattice, in the order of the double loop. *)
Definition all_sites (N : Z) : list (Z * Z) :=
  i ← range N; (λ j, (i, j)) <$> range N.

(** ** The statements of the specification, in its own words *)

(** Neighbour rule of the specification: the backward neighbour along an
    axis is [(index - 1) mod N], the forward one [index mod N]. *)
Definition spec_neighbour (N : Z) (site : Z * Z) (direction : Z) : Z * Z :=
  if direction =? 1 then ((site.1 - 1) mod N, site.2)
  else if direction =? 2 then (site.1, site.2 mod N)
  else if direction =? 3 then (site.1 mod N, site.2)
  else (site.1, (site.2 - 1) mod N).

(** Unlike-bond count of a site of the given species whose four neighbours
    sum to [s]. *)
Definition unlike_bonds (species s : Z) : Z :=
  if species =? 0 then s else 4 - s.

(** Sum of the values of the four resolved neighbours of a site in the swap
    step. *)
Definition neighbour_sum (alloy : list (list Z)) (N : Z) (s : Z * Z)
  : option Z :=
  vs ← mapM (λ t, np.getitem alloy t.1 t.2) (bond_sites N s.1 s.2);
  Some (total vs).

(** Number of the four cells read around [(i, j)] whose value differs from
    the value of the site itself. *)
Definition unlike_neighbours (alloy : list (list Z)) (N : Z) (s : Z * Z)
  : option Z :=
  v ← np.getitem alloy s.1 s.2;
  vs ← mapM (λ t, np.getitem alloy t.1 t.2) (scan_sites N s.1 s.2);
  Some (Z.of_nat (length (filter (λ x, x ≠ v) vs))).

(** Number of sites with exactly [k] unlike neighbours. *)
Definition sites_with_unlike (alloy : list (list Z)) (N k : Z) : Z :=
  Z.of_nat (length (filter (λ s, unlike_neighbours alloy N s = Some k)
                           (all_sites N))).

(** The site [s] has a cell of the given class ([zero]: the cell is 0) and
    the swap step's neighbour sum around it is [b]. *)
Definition in_bucket (alloy : list (list Z)) (N : Z) (zero : bool) (b : Z)
    (s : Z * Z) : Prop :=
  (λ v, bool_decide (v = 0)) <$> np.getitem alloy s.1 s.2 = Some zero ∧
  Bonds alloy N s.1 s.2 = Some b.

Global Instance in_bucket_dec alloy N zero b s :
  Decision (in_bucket alloy N zero b s).
Proof. unfold in_bucket. apply _. Defined.

Definition tallied (alloy : list (list Z)) (N : Z) (zero : bool) (b : Z)
    (ss : list (Z * Z)) : Z :=
  Z.of_nat (length (filter (in_bucket alloy N zero b) ss)).

(** The two cells hold each other's former values. *)
Definition exchanged (alloy alloy' : list (list Z)) (site1 site2 : Z * Z)
  : Prop :=
  np.getitem alloy' site1.1 site1.2 = np.getitem alloy site2.1 site2.2 ∧
  np.getitem alloy' site2.1 site2.2 = np.getitem alloy site1.1 site1.2.

(** ** Concrete inputs on which the theorems are instantiated *)

(** A 3 x 3 lattice, and a draw of its site (0, 0) with direction 1 ("up"). *)
Definition sample_alloy : list (list Z) := [[1; 0; 1]; [0; 0; 1]; [1; 1; 0]].

Definition sample_draws : draws := Draws (0, 0) 1 (1 # 2).

(** The 4 x 4 lattice that [Create_alloy] builds for [Xa = 1/2] when the
    permutation leaves the buffer as it is. *)
Definition half_alloy : list (list Z) :=
  [[1; 1; 1; 1]; [1; 1; 1; 1]; [0; 0; 0; 0]; [0; 0; 0; 0]].

(** A rational stand-in for [np.exp]: the Taylor polynomial of degree 3. *)
Definition exp_taylor (x : Q) : Q :=
  (1 + x + x * x * (1 # 2) + x * x * x * (1 # 6))%Q.

(** ** Notions used by the further properties *)

(** Pascal's triangle. *)
Fixpoint pascal (n r : nat) : nat :=
  match n, r with
  | _, O => 1
  | O, S _ => 0
  | S n', S r' => pascal n' r' + pascal n' r
  end.

(** The lattice with the two species exchanged in every cell. *)
Definition invert (alloy : list (list Z)) : list (list Z) :=
  (λ row : list Z, (λ v, 1 - v) <$> row) <$> alloy.

(** Every cell holds [v]. *)
Definition pure (v : Z) (alloy : list (list Z)) : Prop :=
  Forall (Forall (λ x, x = v)) alloy.

(** The exact value of a finite binary64 float (0 for the others). *)
Definition float_Q (x : SpecFloat.spec_float) : Q :=
  match x with
  | SpecFloat.S754_finite s m e =>
      ((if s then -1 else 1) * inject_Z (Z.pos m) * 2 ^ e)%Q
  | _ => 0%Q
  end.

(** A finite float other than 0.0 and -0.0. *)
Definition float_nonzero (x : SpecFloat.spec_float) : bool :=
  match x with
  | SpecFloat.S754_finite _ _ _ => true
  | _ => false
  end.

(** Line 45 in binary64: [kT = 8.617332*10**-5*T], evaluated from the left;
    [8.617332] and [10**-5] are the floats nearest to these decimals. *)
Definition kT_binary64 (T : SpecFloat.spec_float) : SpecFloat.spec_float :=
  binary64.mul
    (binary64.mul (binary64.div (binary64.float 8617332)
                                (binary64.float 1000000))
                  (binary64.div (binary64.float 1) (binary64.float 100000)))
    T.

(** A float temperature for which line 45 gives a [kT] other than zero; its
    exact value is the [T] of [MC_swap]. *)
Definition usable_temperature (T : SpecFloat.spec_float) : Prop :=
  (0 < float_Q T)%Q ∧ float_nonzero (kT_binary64 T) = true.

(** [Create_alloy] with line 26 evaluated in binary64. *)
Definition Create_alloy_binary64 (np_exp : Q → Q)
    (permutation : list Z → list Z) (rng : nat → draws)
    (N : Z) (Xa : SpecFloat.spec_float) (n : Z) (T E : Q)
  : option (list (list Z)) :=
  alloy ← initial_alloy_binary64 permutation N Xa;
  swap_loop np_exp rng (Z.to_nat n) 0 alloy N E T.

(** The float 300.0. *)
Definition room : SpecFloat.spec_float := binary64.float 300.

(** * Proofs *)

(** ** Indexing *)

Lemma index_in_range len k :
  0 ≤ k < len → np.index len k = Some (Z.to_nat k).
Proof. intros H. unfold np.index. by rewrite decide_True. Qed.

Lemma index_wrap len k :
  - len ≤ k < 0 → np.index len k = Some (Z.to_nat (k + len)).
Proof.
  intros H. unfold np.index.
  rewrite decide_False by lia. by rewrite decide_True.
Qed.

Lemma index_lt len k i : np.index len k = Some i → (Z.of_nat i < len).
Proof.
  unfold np.index. repeat case_decide; intros; simplify_eq; lia.
Qed.

(** What a read and a write inside a square lattice amount to. *)
Lemma cell_lookup N (alloy : list (list Z)) r c :
  square N alloy → 0 ≤ r < N → 0 ≤ c < N →
  ∃ row v,
    alloy !! Z.to_nat r = Some row ∧
    Z.of_nat (length row) = N ∧
    row !! Z.to_nat c = Some v ∧
    np.getitem alloy r c = Some v ∧
    ∀ x, np.setitem alloy r c x =
         Some (<[Z.to_nat r := <[Z.to_nat c := x]> row]> alloy).
Proof.
  intros [Hlen Hrows] Hr Hc.
  destruct (lookup_lt_is_Some_2 alloy (Z.to_nat r)) as [row Hrow]; [lia|].
  pose proof (Forall_lookup_1 _ _ _ _ Hrows Hrow) as Hrowlen. simpl in Hrowlen.
  destruct (lookup_lt_is_Some_2 row (Z.to_nat c)) as [v Hv]; [lia|].
  exists row, v. repeat split; try done.
  - unfold np.getitem. rewrite Hlen, index_in_range by done. simpl.
    rewrite Hrow. simpl. rewrite Hrowlen, index_in_range by done. done.
  - intros x. unfold np.setitem. rewrite Hlen, index_in_range by done. simpl.
    rewrite Hrow. simpl. rewrite Hrowlen, index_in_range by done. done.
Qed.

Lemma getitem_is_Some N (alloy : list (list Z)) r c :
  square N alloy → 0 ≤ r < N → 0 ≤ c < N →
  ∃ v, np.getitem alloy r c = Some v.
Proof.
  intros Hsq Hr Hc.
  destruct (cell_lookup N alloy r c) as (row & v & _ & _ & _ & Hget & _); eauto.
Qed.

Lemma setitem_square N (alloy alloy' : list (list Z)) r c x :
  square N alloy → np.setitem alloy r c x = Some alloy' → square N alloy'.
Proof.
  intros [Hlen Hrows] Hset. unfold np.setitem in Hset.
  destruct (np.index _ r) as [i|]; simplify_option_eq.
  split.
  - by rewrite length_insert.
  - apply Forall_insert; [done|]. rewrite length_insert.
    eapply (Forall_lookup_1 _ _ _ _ Hrows); eauto.
Qed.

Lemma setitem_binary (alloy alloy' : list (list Z)) r c x :
  binary alloy → x = 0 ∨ x = 1 →
  np.setitem alloy r c x = Some alloy' → binary alloy'.
Proof.
  intros Hbin Hx Hset. unfold np.setitem in Hset.
  destruct (np.index _ r) as [i|]; simplify_option_eq.
  apply Forall_insert; [done|]. apply Forall_insert; [|done].
  eapply (Forall_lookup_1 _ _ _ _ Hbin); eauto.
Qed.

Lemma getitem_setitem_same N (alloy alloy' : list (list Z)) r c x :
  square N alloy → 0 ≤ r < N → 0 ≤ c < N →
  np.setitem alloy r c x = Some alloy' →
  np.getitem alloy' r c = Some x.
Proof.
  intros Hsq Hr Hc Hset.
  pose proof (setitem_square _ _ _ _ _ _ Hsq Hset) as Hsq'.
  destruct (cell_lookup N alloy r c) as (row & v & Hrow & _ & Hv & _ & Hs);
    try done.
  rewrite Hs in Hset. injection Hset as <-.
  destruct (cell_lookup N _ r c Hsq' Hr Hc)
    as (row' & v' & Hrow' & _ & Hv' & Hget' & _).
  rewrite Hget'. rewrite list_lookup_insert_eq in Hrow'
    by (apply lookup_lt_Some in Hrow; done).
  simplify_eq. rewrite list_lookup_insert_eq in Hv'
    by (apply lookup_lt_Some in Hv; done).
  done.
Qed.

Lemma getitem_setitem_other N (alloy alloy' : list (list Z)) r c x r' c' :
  square N alloy → 0 ≤ r < N → 0 ≤ c < N → 0 ≤ r' < N → 0 ≤ c' < N →
  (r, c) ≠ (r', c') →
  np.setitem alloy r c x = Some alloy' →
  np.getitem alloy' r' c' = np.getitem alloy r' c'.
Proof.
  intros Hsq Hr Hc Hr' Hc' Hne Hset.
  pose proof (setitem_square _ _ _ _ _ _ Hsq Hset) as Hsq'.
  destruct (cell_lookup N alloy r c) as (row & v & Hrow & _ & Hv & _ & Hs);
    try done.
  rewrite Hs in Hset. injection Hset as <-.
  destruct (cell_lookup N alloy r' c' Hsq Hr' Hc')
    as (row1 & v1 & Hrow1 & _ & Hv1 & Hget1 & _).
  destruct (cell_lookup N _ r' c' Hsq' Hr' Hc')
    as (row2 & v2 & Hrow2 & _ & Hv2 & Hget2 & _).
  rewrite Hget1, Hget2. f_equal.
  destruct (decide (r = r')) as [->|Hrne].
  - rewrite list_lookup_insert_eq in Hrow2
      by (apply lookup_lt_Some in Hrow; done).
    simplify_eq. rewrite list_lookup_insert_ne in Hv2; [congruence|].
    intros Heq. apply Hne. f_equal. lia.
  - rewrite list_lookup_insert_ne in Hrow2 by lia. congruence.
Qed.

(** ** Counting cells *)

Lemma sum_list_with_insert {A} (f : A → nat) (l : list A) j old new :
  l !! j = Some old →
  (sum_list_with f (<[j := new]> l) + f old = sum_list_with f l + f new)%nat.
Proof.
  revert j. induction l as [|a l IH]; intros [|j] Hj; simplify_eq/=; [lia|].
  specialize (IH _ Hj). lia.
Qed.

Lemma count_cells_setitem N (alloy alloy' : list (list Z)) r c x old v :
  square N alloy → 0 ≤ r < N → 0 ≤ c < N →
  np.getitem alloy r c = Some old →
  np.setitem alloy r c x = Some alloy' →
  (count_cells v alloy' + indicator v old =
   count_cells v alloy + indicator v x)%nat.
Proof.
  intros Hsq Hr Hc Hget Hset.
  destruct (cell_lookup N alloy r c) as (row & w & Hrow & _ & Hw & Hg & Hs);
    try done.
  rewrite Hs in Hset. rewrite Hg in Hget. simplify_eq.
  unfold count_cells.
  pose proof (sum_list_with_insert (count_row v) alloy _ row
                (<[Z.to_nat c := x]> row) Hrow) as H1.
  pose proof (sum_list_with_insert (indicator v) row _ old x Hw) as H2.
  unfold count_row in *. lia.
Qed.

Lemma getitem_binary (alloy : list (list Z)) r c v :
  binary alloy → np.getitem alloy r c = Some v → v = 0 ∨ v = 1.
Proof.
  intros Hbin Hget. unfold np.getitem in Hget.
  destruct (np.index _ r) as [i|]; simplify_option_eq.
  match goal with
  | Hrow : alloy !! i = Some ?row, Hv : ?row !! _ = Some v |- _ =>
      pose proof (Forall_lookup_1 _ _ _ _ Hbin Hrow) as Hr;
      apply (Forall_lookup_1 _ _ _ _ Hr Hv)
  end.
Qed.

(** ** The two assignments of an accepted swap *)

Lemma setitem_same_value N (alloy : list (list Z)) r c v :
  square N alloy → 0 ≤ r < N → 0 ≤ c < N →
  np.getitem alloy r c = Some v →
  np.setitem alloy r c v = Some alloy.
Proof.
  intros Hsq Hr Hc Hget.
  destruct (cell_lookup N alloy r c) as (row & w & Hrow & _ & Hw & Hg & Hs);
    try done.
  rewrite Hg in Hget. injection Hget as ->.
  rewrite Hs. f_equal.
  rewrite (list_insert_id row) by done. by apply list_insert_id.
Qed.

Lemma exchange_spec N (alloy : list (list Z)) s1 s2 atom1 atom2 :
  square N alloy → on_lattice N s1 → on_lattice N s2 →
  np.getitem alloy s1.1 s1.2 = Some atom1 →
  np.getitem alloy s2.1 s2.2 = Some atom2 →
  ∃ alloy',
    exchange alloy s1 s2 atom1 atom2 = Some alloy' ∧
    square N alloy' ∧
    (∀ v, count_cells v alloy' = count_cells v alloy) ∧
    np.getitem alloy' s1.1 s1.2 = Some atom2 ∧
    np.getitem alloy' s2.1 s2.2 = Some atom1 ∧
    (∀ s, on_lattice N s → s ≠ s1 → s ≠ s2 →
          np.getitem alloy' s.1 s.2 = np.getitem alloy s.1 s.2) ∧
    (atom1 = atom2 → alloy' = alloy) ∧
    (binary alloy → binary alloy').
Proof.
  destruct s1 as [r1 c1], s2 as [r2 c2]. simpl.
  intros Hsq [Hr1 Hc1] [Hr2 Hc2] Hg1 Hg2. simpl in *.
  destruct (cell_lookup N alloy r1 c1) as (? & ? & _ & _ & _ & _ & Hs1);
    try done.
  pose proof (Hs1 atom2) as Hset1.
  set (alloy1 := <[Z.to_nat r1 := _]> alloy) in Hset1. clearbody alloy1.
  clear Hs1.
  pose proof (setitem_square _ _ _ _ _ _ Hsq Hset1) as Hsq1.
  destruct (cell_lookup N alloy1 r2 c2) as (? & ? & _ & _ & _ & _ & Hs2);
    try done.
  pose proof (Hs2 atom1) as Hset2.
  set (alloy2 := <[Z.to_nat r2 := _]> alloy1) in Hset2. clearbody alloy2.
  clear Hs2.
  pose proof (setitem_square _ _ _ _ _ _ Hsq1 Hset2) as Hsq2.
  (* the value found at the second site just before the second write *)
  assert (np.getitem alloy1 r2 c2 = Some atom2) as Hmid.
  { destruct (decide ((r1, c1) = (r2, c2))) as [Heq|Hne].
    - injection Heq as Er Ec. subst r2 c2.
      exact (getitem_setitem_same N _ _ _ _ _ Hsq Hr1 Hc1 Hset1).
    - rewrite (getitem_setitem_other N _ _ _ _ _ _ _ Hsq Hr1 Hc1 Hr2 Hc2
                 Hne Hset1).
      done. }
  exists alloy2. unfold exchange. simpl. rewrite Hset1. simpl.
  split; [done|]. split; [done|]. split; [|split; [|split; [|split; [|split]]]].
  - intros v.
    pose proof (count_cells_setitem N _ _ _ _ _ _ v Hsq Hr1 Hc1 Hg1 Hset1).
    pose proof (count_cells_setitem N _ _ _ _ _ _ v Hsq1 Hr2 Hc2 Hmid Hset2).
    lia.
  - destruct (decide ((r1, c1) = (r2, c2))) as [Heq|Hne].
    + injection Heq as Er Ec. subst r2 c2.
      rewrite (getitem_setitem_same N _ _ _ _ _ Hsq1 Hr1 Hc1 Hset2).
      congruence.
    + rewrite (getitem_setitem_other N _ _ _ _ _ _ _ Hsq1 Hr2 Hc2 Hr1 Hc1
                 (not_eq_sym Hne) Hset2).
      exact (getitem_setitem_same N _ _ _ _ _ Hsq Hr1 Hc1 Hset1).
  - exact (getitem_setitem_same N _ _ _ _ _ Hsq1 Hr2 Hc2 Hset2).
  - intros [r c] [Hr Hc] Hn1 Hn2. simpl in *.
    rewrite (getitem_setitem_other N _ _ _ _ _ _ _ Hsq1 Hr2 Hc2 Hr Hc
               (not_eq_sym Hn2) Hset2).
    exact (getitem_setitem_other N _ _ _ _ _ _ _ Hsq Hr1 Hc1 Hr Hc
             (not_eq_sym Hn1) Hset1).
  - intros ->.
    rewrite (setitem_same_value N alloy r1 c1 atom2 Hsq Hr1 Hc1 Hg1) in Hset1.
    injection Hset1 as <-.
    rewrite (setitem_same_value N alloy r2 c2 atom2 Hsq Hr2 Hc2 Hg2) in Hset2.
    by injection Hset2 as <-.
  - intros Hbin.
    eapply setitem_binary; [|eapply getitem_binary; [exact Hbin|exact Hg1]
                            |exact Hset2].
    eapply setitem_binary; [exact Hbin|eapply getitem_binary; eauto
                            |exact Hset1].
Qed.

(** ** Rational tests *)

Lemma Qlt_bool_iff x y : Qlt_bool x y = true ↔ (x < y)%Q.
Proof.
  unfold Qlt_bool. rewrite negb_true_iff, <- not_true_iff_false, Qle_bool_iff.
  split; [apply Qnot_le_lt | apply Qlt_not_le].
Qed.

Lemma kT_nonzero T : (0 < T)%Q → Qeq_bool (k_B * T) 0 = false.
Proof.
  intros HT. apply not_true_iff_false. rewrite Qeq_bool_iff.
  intros H0. assert (0 < k_B * T)%Q as Hpos.
  { apply Qmult_lt_0_compat; [reflexivity | done]. }
  rewrite H0 in Hpos. by apply Qlt_irrefl in Hpos.
Qed.

(** ** Sites read by one Monte-Carlo step *)

Lemma select_neighbour_on_lattice N d :
  0 < N → valid_draws N d → on_lattice N (select_neighbour N d).
Proof.
  intros HN (Hr & Hc & _). unfold select_neighbour, on_lattice.
  pose proof (Z.mod_pos_bound ((random_atom d).1 - 2) N HN).
  pose proof (Z.mod_pos_bound ((random_atom d).1) N HN).
  pose proof (Z.mod_pos_bound ((random_atom d).2) N HN).
  repeat case_match; simpl; lia.
Qed.

Lemma bond_sites_on_lattice N r c :
  0 < N → 0 ≤ r < N → 0 ≤ c < N → Forall (on_lattice N) (bond_sites N r c).
Proof.
  intros HN Hr Hc. unfold bond_sites, on_lattice.
  pose proof (Z.mod_pos_bound (r - 2) N HN).
  pose proof (Z.mod_pos_bound r N HN).
  pose proof (Z.mod_pos_bound (c - 2) N HN).
  pose proof (Z.mod_pos_bound c N HN).
  repeat constructor; simpl; lia.
Qed.

Lemma Bonds_is_Some N (alloy : list (list Z)) r c :
  0 < N → square N alloy → 0 ≤ r < N → 0 ≤ c < N →
  ∃ b, Bonds alloy N r c = Some b.
Proof.
  intros HN Hsq Hr Hc. unfold Bonds.
  pose proof (Z.mod_pos_bound (r - 2) N HN).
  pose proof (Z.mod_pos_bound r N HN).
  pose proof (Z.mod_pos_bound (c - 2) N HN).
  pose proof (Z.mod_pos_bound c N HN).
  destruct (getitem_is_Some N alloy (r mod N) c) as [a ->]; try done.
  destruct (getitem_is_Some N alloy ((r - 2) mod N) c) as [b ->]; try done.
  destruct (getitem_is_Some N alloy r (c mod N)) as [x ->]; try done.
  destruct (getitem_is_Some N alloy r ((c - 2) mod N)) as [y ->]; try done.
  simpl. eauto.
Qed.

Lemma energy_is_Some N (alloy : list (list Z)) E s1 s2 atom1 atom2 :
  0 < N → square N alloy → on_lattice N s1 → on_lattice N s2 →
  ∃ e, energy alloy N E s1 s2 atom1 atom2 = Some e.
Proof.
  intros HN Hsq [? ?] [? ?]. unfold energy.
  destruct (atom1 =? atom2); [eauto|].
  destruct (Bonds_is_Some N alloy s1.1 s1.2) as [b1 ->]; try done.
  destruct (Bonds_is_Some N alloy s2.1 s2.2) as [b2 ->]; try done.
  simpl. destruct (atom1 =? 0); eauto.
Qed.

(** The step never raises on a well-formed lattice, and its result is
    decided by the two tests of lines 97 and 100. *)
Lemma MC_swap_cases (np_exp : Q → Q) N (alloy : list (list Z)) E T d :
  0 < N → (0 < T)%Q → square N alloy → valid_draws N d →
  ∃ atom1 atom2 e,
    np.getitem alloy (random_atom d).1 (random_atom d).2 = Some atom1 ∧
    np.getitem alloy (select_neighbour N d).1 (select_neighbour N d).2
      = Some atom2 ∧
    energy alloy N E (random_atom d) (select_neighbour N d) atom1 atom2
      = Some e ∧
    MC_swap np_exp alloy N E T d =
      if Qlt_bool e 0 || Qlt_bool (uniform d) (np_exp (- e / (k_B * T))%Q)
      then exchange alloy (random_atom d) (select_neighbour N d) atom1 atom2
      else Some alloy.
Proof.
  intros HN HT Hsq Hd.
  pose proof (select_neighbour_on_lattice N d HN Hd) as Hs2.
  assert (on_lattice N (random_atom d)) as Hs1
    by (destruct Hd as (? & ? & _); by split).
  destruct Hs1 as [Hr1 Hc1]. destruct Hs2 as [Hr2 Hc2].
  destruct (getitem_is_Some N alloy _ _ Hsq Hr1 Hc1) as [atom1 Hg1].
  destruct (getitem_is_Some N alloy _ _ Hsq Hr2 Hc2) as [atom2 Hg2].
  destruct (energy_is_Some N alloy E (random_atom d) (select_neighbour N d)
              atom1 atom2) as [e He]; try done.
  exists atom1, atom2, e. repeat split; try done.
  unfold MC_swap. rewrite decide_False by lia.
  rewrite Hg1. simpl. rewrite Hg2. simpl. rewrite He. simpl.
  rewrite (kT_nonzero T HT).
  by destruct (Qlt_bool e 0).
Qed.

Lemma Bonds_neighbour_sum (alloy : list (list Z)) N r c :
  Bonds alloy N r c = neighbour_sum alloy N (r, c).
Proof.
  unfold Bonds, neighbour_sum, bond_sites. simpl.
  destruct (np.getitem alloy (r mod N) c); simpl; [|done].
  destruct (np.getitem alloy ((r - 2) mod N) c); simpl; [|done].
  destruct (np.getitem alloy r (c mod N)); simpl; [|done].
  destruct (np.getitem alloy r ((c - 2) mod N)); simpl; [|done].
  f_equal. lia.
Qed.

Lemma MC_swap_preserves (np_exp : Q → Q) N (alloy : list (list Z)) E T d :
  0 < N → (0 < T)%Q → square N alloy → valid_draws N d →
  ∃ alloy',
    MC_swap np_exp alloy N E T d = Some alloy' ∧
    square N alloy' ∧
    (∀ v, count_cells v alloy' = count_cells v alloy) ∧
    (binary alloy → binary alloy').
Proof.
  intros HN HT Hsq Hd.
  destruct (MC_swap_cases np_exp N alloy E T d HN HT Hsq Hd)
    as (atom1 & atom2 & e & Hg1 & Hg2 & _ & ->).
  destruct (Qlt_bool e 0 || Qlt_bool _ _); [|by exists alloy].
  destruct (exchange_spec N alloy (random_atom d) (select_neighbour N d)
              atom1 atom2) as (alloy' & -> & ? & ? & _ & _ & _ & _ & ?);
    try done.
  - destruct Hd as (? & ? & _); by split.
  - by apply select_neighbour_on_lattice.
  - by exists alloy'.
Qed.

Lemma swap_loop_preserves (np_exp : Q → Q) (rng : nat → draws) N E T steps :
  0 < N → (0 < T)%Q → (∀ i, valid_draws N (rng i)) →
  ∀ i (alloy : list (list Z)), square N alloy →
  ∃ alloy',
    swap_loop np_exp rng steps i alloy N E T = Some alloy' ∧
    square N alloy' ∧
    (∀ v, count_cells v alloy' = count_cells v alloy) ∧
    (binary alloy → binary alloy').
Proof.
  intros HN HT Hrng. induction steps as [|steps IH]; intros i alloy Hsq.
  - by exists alloy.
  - destruct (MC_swap_preserves np_exp N alloy E T (rng i) HN HT Hsq (Hrng i))
      as (alloy1 & Hstep & Hsq1 & Hc1 & Hb1).
    destruct (IH (S i) alloy1 Hsq1) as (alloy' & Hloop & Hsq' & Hc' & Hb').
    exists alloy'. simpl. rewrite Hstep. simpl.
    split; [done|]. split; [done|].
    split; [intros v; by rewrite Hc', Hc1 | auto].
Qed.

(** ** The initial lattice *)

Lemma split_rows_length rows cols (flat : list Z) :
  length (np.split_rows rows cols flat) = rows.
Proof. revert flat. induction rows; intros; simpl; [done|]. by rewrite IHrows. Qed.

Lemma split_rows_rows rows cols (flat : list Z) :
  length flat = (rows * cols)%nat →
  Forall (λ row, length row = cols) (np.split_rows rows cols flat).
Proof.
  revert flat. induction rows as [|rows IH]; intros flat Hlen; simpl.
  - constructor.
  - constructor.
    + rewrite length_take. lia.
    + apply IH. rewrite length_drop. lia.
Qed.

Lemma split_rows_count v rows cols (flat : list Z) :
  length flat = (rows * cols)%nat →
  count_cells v (np.split_rows rows cols flat) = count_row v flat.
Proof.
  revert flat. induction rows as [|rows IH]; intros flat Hlen; simpl.
  - by destruct flat.
  - unfold count_cells in *. simpl. rewrite IH by (rewrite length_drop; lia).
    unfold count_row. rewrite <- sum_list_with_app. by rewrite take_drop.
Qed.

Lemma split_rows_Forall (P : Z → Prop) rows cols (flat : list Z) :
  Forall P flat → Forall (Forall P) (np.split_rows rows cols flat).
Proof.
  revert flat. induction rows as [|rows IH]; intros flat HP; simpl.
  - constructor.
  - constructor; [by apply Forall_take | by apply IH, Forall_drop].
Qed.

Lemma reshape_spec (flat : list Z) N alloy :
  np.reshape flat N = Some alloy →
  square N alloy ∧ (∀ v, count_cells v alloy = count_row v flat) ∧
  (∀ P : Z → Prop, Forall P flat → Forall (Forall P) alloy).
Proof.
  unfold np.reshape. case_decide as H; [|done]. destruct H as [HN Hlen].
  intros [= <-].
  assert (length flat = (Z.to_nat N * Z.to_nat N)%nat) as Hl by nia.
  split; [split|split].
  - rewrite split_rows_length. lia.
  - eapply Forall_impl; [by apply split_rows_rows|]. simpl. intros; lia.
  - intros v. by apply split_rows_count.
  - intros P. apply split_rows_Forall.
Qed.

Lemma count_row_replicate v n x :
  count_row v (replicate n x) = (n * indicator v x)%nat.
Proof.
  unfold count_row. induction n as [|n IH]; simpl; [done|]. rewrite IH. lia.
Qed.

Lemma int_integral (x : Q) (m : Z) : (x == inject_Z m)%Q → int x = m.
Proof.
  unfold Qeq, int. destruct x as [p q]. simpl. intros H.
  rewrite Z.mul_1_r in H. subst p. by apply Z.quot_mul.
Qed.

(** In exact arithmetic, when [N² · Xa] is a whole number [m], the initial
    lattice is built, is of shape (N, N), and holds [m] ones and [N² - m]
    zeros. *)
Lemma initial_alloy_integral (permutation : list Z → list Z) N Xa m :
  (∀ l, permutation l ≡ₚ l) →
  0 ≤ N → 0 ≤ m ≤ N ^ 2 → (inject_Z (N ^ 2) * Xa == inject_Z m)%Q →
  ∃ alloy,
    initial_alloy permutation N Xa = Some alloy ∧
    square N alloy ∧ binary alloy ∧
    count_cells 1 alloy = Z.to_nat m ∧
    count_cells 0 alloy = Z.to_nat (N ^ 2 - m).
Proof.
  intros Hperm HN Hm HXa. unfold initial_alloy, random_matrix.
  rewrite (int_integral _ m HXa).
  rewrite (int_integral _ (N ^ 2 - m)).
  2:{ unfold Zminus. rewrite inject_Z_plus, inject_Z_opp, <- HXa. ring. }
  unfold np.ones, np.zeros. rewrite !decide_False by lia. simpl.
  set (flat := replicate (Z.to_nat m) 1 ++ replicate (Z.to_nat (N ^ 2 - m)) 0).
  destruct (np.reshape (permutation flat) N) as [alloy|] eqn:Hre.
  - exists alloy. split; [done|].
    destruct (reshape_spec _ _ _ Hre) as (Hsq & Hcount & Hall).
    split; [done|]. split; [|split].
    + apply Hall. rewrite Hperm. unfold flat.
      apply Forall_app; split; apply Forall_replicate; auto.
    + rewrite Hcount. unfold count_row. rewrite Hperm.
      fold (count_row 1 flat). unfold flat, count_row.
      rewrite sum_list_with_app. fold (count_row 1 (replicate (Z.to_nat m) 1)).
      fold (count_row 1 (replicate (Z.to_nat (N ^ 2 - m)) 0)).
      rewrite !count_row_replicate. unfold indicator. simpl. lia.
    + rewrite Hcount. unfold count_row. rewrite Hperm.
      unfold flat. rewrite sum_list_with_app.
      fold (count_row 0 (replicate (Z.to_nat m) 1)).
      fold (count_row 0 (replicate (Z.to_nat (N ^ 2 - m)) 0)).
      rewrite !count_row_replicate. unfold indicator. simpl. lia.
  - exfalso. unfold np.reshape in Hre. rewrite decide_True in Hre; [done|].
    split; [done|]. rewrite (Permutation_length (Hperm flat)).
    unfold flat. rewrite length_app, !length_replicate. lia.
Qed.

(** In exact arithmetic, the two truncations of line 26 lose one cell
    whenever [N² · Xa] is not a whole number. *)
Lemma truncations_sum N Xa :
  (0 <= Xa)%Q → (Xa <= 1)%Q →
  let n_a := int (inject_Z (N ^ 2) * Xa)%Q in
  let n_b := int (inject_Z (N ^ 2) * (1 - Xa))%Q in
  0 ≤ n_a ∧ 0 ≤ n_b ∧
  ((∃ m, inject_Z (N ^ 2) * Xa == inject_Z m)%Q ∧ n_a + n_b = N ^ 2 ∨
   (¬ ∃ m, inject_Z (N ^ 2) * Xa == inject_Z m)%Q ∧ n_a + n_b = N ^ 2 - 1).
Proof.
  destruct Xa as [p q]. unfold Qle, int. simpl.
  rewrite !Z.mul_1_r. intros Hp Hpq.
  assert (0 ≤ N ^ 2) as HN2 by (apply Z.pow_even_nonneg; by exists 1).
  set (M := N ^ 2) in *. clearbody M.
  rewrite !Pos.mul_1_l.
  replace (M * (1 * Z.pos q + - p)) with (M * Z.pos q - M * p) by lia.
  rewrite !Z.quot_div_nonneg by nia.
  pose proof (Z.div_mod (M * p) (Z.pos q) ltac:(lia)) as Hdm.
  pose proof (Z.mod_pos_bound (M * p) (Z.pos q) ltac:(lia)) as Hmod.
  assert (0 ≤ M * p / Z.pos q) as Hna by (apply Z.div_pos; nia).
  destruct (decide ((M * p) mod Z.pos q = 0)) as [H0|Hn0].
  - assert ((M * Z.pos q - M * p) / Z.pos q = M - M * p / Z.pos q) as ->.
    { symmetry. apply (Z.div_unique _ _ _ 0); lia. }
    split; [done|]. split; [nia|]. left. split; [|lia].
    exists (M * p / Z.pos q). unfold Qeq. simpl. lia.
  - assert ((M * Z.pos q - M * p) / Z.pos q = M - M * p / Z.pos q - 1) as Hnb.
    { symmetry. apply (Z.div_unique _ _ _ (Z.pos q - (M * p) mod Z.pos q)); lia. }
    split; [done|]. split.
    { apply Z.div_pos; nia. }
    right. split; [|lia].
    intros [m Hm]. unfold Qeq in Hm. simpl in Hm. apply Hn0.
    rewrite Z.mul_1_r in Hm. rewrite Hm. apply Z.mod_mul. lia.
Qed.

Lemma random_matrix_raises (permutation : list Z → list Z) N n_a n_b :
  (∀ l, permutation l ≡ₚ l) → 0 ≤ n_a → 0 ≤ n_b → n_a + n_b ≠ N ^ 2 →
  random_matrix permutation N n_a n_b = None.
Proof.
  intros Hperm Ha Hb Hsum. unfold random_matrix, np.ones, np.zeros.
  rewrite !decide_False by lia. simpl.
  unfold np.reshape. rewrite decide_False; [done|].
  intros [_ Hlen]. rewrite (Permutation_length (Hperm _)) in Hlen.
  rewrite length_app, !length_replicate in Hlen. lia.
Qed.

Lemma initial_alloy_raises (permutation : list Z → list Z) N Xa :
  (∀ l, permutation l ≡ₚ l) →
  (0 <= Xa)%Q → (Xa <= 1)%Q →
  (¬ ∃ m, inject_Z (N ^ 2) * Xa == inject_Z m)%Q →
  initial_alloy permutation N Xa = None.
Proof.
  intros Hperm H0 H1 Hfrac. unfold initial_alloy.
  destruct (truncations_sum N Xa H0 H1) as (Ha & Hb & [[Hint _]|[_ Hsum]]);
    [done|].
  apply random_matrix_raises; [done|done|done|lia].
Qed.

(** In binary64 the buffer is one cell short for [N = 3], [Xa = 0.5], where
    every operation is exact, and also for [N = 10], [Xa = 0.57], where
    [100 * 0.57] rounds below 57. *)
Lemma atom_counts_binary64_odd_half :
  atom_counts_binary64 3 binary64.half = Some (4, 4).
Proof. vm_compute. reflexivity. Qed.

Lemma atom_counts_binary64_dot57 :
  atom_counts_binary64 10 binary64.dot57 = Some (56, 43).
Proof. vm_compute. reflexivity. Qed.

Lemma initial_alloy_binary64_raises (permutation : list Z → list Z) :
  (∀ l, permutation l ≡ₚ l) →
  initial_alloy_binary64 permutation 3 binary64.half = None ∧
  initial_alloy_binary64 permutation 10 binary64.dot57 = None.
Proof.
  intros Hperm. unfold initial_alloy_binary64.
  rewrite atom_counts_binary64_odd_half, atom_counts_binary64_dot57.
  split; apply random_matrix_raises; done || lia.
Qed.

(** ** Wrap-around indexing and the scan of [test2D] *)

(** NumPy's negative indices are indices modulo the axis length. *)
Lemma index_mod len k :
  - len ≤ k < len → np.index len k = Some (Z.to_nat (k mod len)).
Proof.
  intros Hk. destruct (decide (0 ≤ k)) as [Hpos|Hneg].
  - rewrite index_in_range by lia. by rewrite Z.mod_small by lia.
  - rewrite index_wrap by lia. do 2 f_equal.
    apply (Z.mod_unique_pos _ _ (-1)); lia.
Qed.

Lemma two_mod_bounds N : 1 ≤ N → 0 ≤ 2 mod N ≤ 2 ∧ 2 mod N < N.
Proof.
  intros HN. pose proof (Z.mod_pos_bound 2 N ltac:(lia)).
  pose proof (Z.mod_le 2 N ltac:(lia) ltac:(lia)). lia.
Qed.

Lemma scan_back_index N i :
  1 ≤ N → 0 ≤ i < N →
  np.index N (i - 2 mod N) = Some (Z.to_nat ((i - 2) mod N)) ∧
  np.index N ((i - 2) mod N) = Some (Z.to_nat ((i - 2) mod N)) ∧
  np.index N (i mod N) = Some (Z.to_nat i).
Proof.
  intros HN Hi. pose proof (two_mod_bounds N HN) as H2.
  pose proof (Z.mod_pos_bound (i - 2) N ltac:(lia)) as Hm.
  split; [|split].
  - rewrite index_mod by lia. by rewrite Zminus_mod_idemp_r.
  - by apply index_in_range.
  - rewrite Z.mod_small by lia. by apply index_in_range.
Qed.

Lemma getitem_index N (alloy : list (list Z)) r c i j :
  square N alloy → np.index N r = Some i → np.index N c = Some j →
  np.getitem alloy r c = alloy !! i ≫= (.!! j).
Proof.
  intros [Hlen Hrows] Hi Hj. unfold np.getitem.
  rewrite Hlen, Hi. simpl.
  destruct (alloy !! i) as [row|] eqn:Hrow; [|done]. simpl.
  pose proof (Forall_lookup_1 _ _ _ _ Hrows Hrow) as Hrl. simpl in Hrl.
  by rewrite Hrl, Hj.
Qed.

Lemma getitem_resolve N (alloy : list (list Z)) s i j :
  square N alloy → resolve N s = Some (i, j) →
  np.getitem alloy s.1 s.2 = alloy !! i ≫= (.!! j).
Proof.
  intros Hsq Hres. unfold resolve in Hres.
  destruct (np.index N s.1) as [i'|] eqn:Hi; [|done]. simpl in *.
  destruct (np.index N s.2) as [j'|] eqn:Hj; [|done]. simpl in *.
  injection Hres as -> ->. by apply (getitem_index N).
Qed.


(** The scan and the swap step read the same four neighbour values. *)
Lemma scan_reads_bond_sites N (alloy : list (list Z)) i j :
  1 ≤ N → square N alloy → 0 ≤ i < N → 0 ≤ j < N →
  np.getitem alloy (i - 2 mod N) j = np.getitem alloy ((i - 2) mod N) j ∧
  np.getitem alloy i (j - 2 mod N) = np.getitem alloy i ((j - 2) mod N).
Proof.
  intros HN Hsq Hi Hj.
  destruct (scan_back_index N i HN Hi) as (Hi1 & Hi2 & _).
  destruct (scan_back_index N j HN Hj) as (Hj1 & Hj2 & _).
  pose proof (index_in_range N i Hi) as Hi0.
  pose proof (index_in_range N j Hj) as Hj0.
  split.
  - rewrite (getitem_index N alloy _ _ _ _ Hsq Hi1 Hj0).
    by rewrite (getitem_index N alloy _ _ _ _ Hsq Hi2 Hj0).
  - rewrite (getitem_index N alloy _ _ _ _ Hsq Hi0 Hj1).
    by rewrite (getitem_index N alloy _ _ _ _ Hsq Hi0 Hj2).
Qed.

(** ** One tally of the scan *)

Ltac five_cases k :=
  let H := fresh in
  assert (k = 0 ∨ k = 1 ∨ k = 2 ∨ k = 3 ∨ k = 4) as H by lia;
  destruct H as [->|[->|[->|[->| ->]]]].

Ltac five_cells h :=
  do 5 (destruct h as [|? h]; [done|]); destruct h; [|done].

Lemma tally_step N (alloy : list (list Z)) i j (st : list Z * list Z) :
  1 ≤ N → square N alloy → binary alloy → 0 ≤ i < N → 0 ≤ j < N →
  length st.1 = 5%nat → length st.2 = 5%nat →
  ∃ v b st',
    np.getitem alloy i j = Some v ∧ Bonds alloy N i j = Some b ∧
    (v = 0 ∨ v = 1) ∧ 0 ≤ b ≤ 4 ∧
    tally alloy N i j st = Some st' ∧
    length st'.1 = 5%nat ∧ length st'.2 = 5%nat ∧
    total st'.1 + total st'.2 = total st.1 + total st.2 + 1 ∧
    ∀ k, 0 ≤ k < 5 →
      st'.1 !!! Z.to_nat k =
        st.1 !!! Z.to_nat k + (if decide (v = 0 ∧ b = k) then 1 else 0) ∧
      st'.2 !!! Z.to_nat k =
        st.2 !!! Z.to_nat k + (if decide (v ≠ 0 ∧ b = k) then 1 else 0).
Proof.
  intros HN Hsq Hbin Hi Hj Hl1 Hl2.
  destruct (scan_reads_bond_sites N alloy i j HN Hsq Hi Hj) as [Hup Hleft].
  pose proof (Z.mod_pos_bound (i - 2) N ltac:(lia)).
  pose proof (Z.mod_pos_bound i N ltac:(lia)).
  pose proof (Z.mod_pos_bound (j - 2) N ltac:(lia)).
  pose proof (Z.mod_pos_bound j N ltac:(lia)).
  destruct (getitem_is_Some N alloy (i mod N) j) as [a Ha]; try done.
  destruct (getitem_is_Some N alloy ((i - 2) mod N) j) as [b Hb]; try done.
  destruct (getitem_is_Some N alloy i (j mod N)) as [x Hx]; try done.
  destruct (getitem_is_Some N alloy i ((j - 2) mod N)) as [y Hy]; try done.
  destruct (getitem_is_Some N alloy i j) as [v Hv]; try done.
  pose proof (getitem_binary _ _ _ _ Hbin Ha).
  pose proof (getitem_binary _ _ _ _ Hbin Hb).
  pose proof (getitem_binary _ _ _ _ Hbin Hx).
  pose proof (getitem_binary _ _ _ _ Hbin Hy).
  pose proof (getitem_binary _ _ _ _ Hbin Hv) as Hv01.
  unfold tally, Bonds. rewrite Hup, Hleft, Ha, Hb, Hx, Hy, Hv. simpl.
  set (bond := a + b + x + y). assert (0 ≤ bond ≤ 4) as Hbond by (unfold bond; lia).
  clearbody bond.
  destruct st as [n_a n_b]. simpl in *. five_cells n_a. five_cells n_b.
  exists v, bond.
  destruct Hv01 as [-> | ->]; five_cases bond; eexists;
    (split; [done|]); (split; [done|]); (split; [lia|]); (split; [lia|]);
    (split; [reflexivity|]); (split; [done|]); (split; [done|]);
    (split; [simpl; lia|]);
    intros k Hk; five_cases k; simpl; repeat case_decide; lia.
Qed.

(** ** The double loop *)

Lemma for_in_app {A S} (l1 l2 : list A) (body : A → S → option S) s :
  for_in (l1 ++ l2) body s = for_in l1 body s ≫= for_in l2 body.
Proof.
  revert s. induction l1 as [|a l1 IH]; intros s; simpl; [done|].
  destruct (body a s); simpl; [apply IH | done].
Qed.

Lemma for_in_fmap {A B S} (g : A → B) (l : list A) (body : B → S → option S) s :
  for_in (g <$> l) body s = for_in l (λ a, body (g a)) s.
Proof.
  revert s. induction l as [|a l IH]; intros s; simpl; [done|].
  destruct (body (g a) s); simpl; [apply IH | done].
Qed.

Lemma for_in_bind {A B S} (f : A → list B) (l : list A)
    (body : B → S → option S) s :
  for_in (l ≫= f) body s = for_in l (λ a s', for_in (f a) body s') s.
Proof.
  revert s. induction l as [|a l IH]; intros s; simpl; [done|].
  rewrite for_in_app. destruct (for_in (f a) body s); simpl; [apply IH | done].
Qed.

Lemma for_in_nested {A B S} (l1 : list A) (l2 : list B)
    (body : A → B → S → option S) s :
  for_in l1 (λ i st, for_in l2 (λ j st', body i j st') st) s =
  for_in (i ← l1; (λ j, (i, j)) <$> l2) (λ p, body p.1 p.2) s.
Proof.
  rewrite for_in_bind. revert s.
  induction l1 as [|i l1 IH]; intros s; simpl; [done|].
  rewrite for_in_fmap. simpl.
  destruct (for_in l2 _ s); simpl; [apply IH | done].
Qed.

(** The nested loops of [test2D] visit [all_sites] in order. *)
Lemma scan_all_sites (alloy : list (list Z)) N :
  scan alloy N =
  for_in (all_sites N) (λ s, tally alloy N s.1 s.2)
         (replicate 5 0, replicate 5 0).
Proof. unfold scan, all_sites. apply for_in_nested. Qed.

Lemma all_sites_on_lattice N : Forall (on_lattice N) (all_sites N).
Proof.
  apply Forall_forall. intros [i j] Hin. unfold all_sites, range in Hin.
  apply list_elem_of_bind in Hin as (i' & Hj & Hi).
  apply list_elem_of_fmap in Hj as (j' & Heq & Hj).
  injection Heq as -> ->.
  apply elem_of_seqZ in Hi. apply elem_of_seqZ in Hj.
  split; simpl; lia.
Qed.

Lemma all_sites_length N :
  0 ≤ N → Z.of_nat (length (all_sites N)) = N * N.
Proof.
  intros HN. unfold all_sites.
  assert (∀ l : list Z,
    length (l ≫= λ i, (λ j, (i, j)) <$> range N)
    = (length l * Z.to_nat N)%nat) as Hl.
  { induction l as [|i l IH]; [done|].
    rewrite bind_cons, length_app, length_fmap, IH. unfold range.
    rewrite length_seqZ. simpl. lia. }
  rewrite Hl. unfold range. rewrite length_seqZ. nia.
Qed.

Lemma tallied_cons (alloy : list (list Z)) N zero b s ss :
  tallied alloy N zero b (s :: ss) =
  (if decide (in_bucket alloy N zero b s) then 1 else 0)
  + tallied alloy N zero b ss.
Proof.
  unfold tallied. rewrite filter_cons. case_decide; simpl; lia.
Qed.

(** Invariant of the scan over any list of sites, from any pair of
    histograms of length 5. *)
Lemma scan_invariant N (alloy : list (list Z)) (ss : list (Z * Z)) :
  square N alloy → binary alloy → Forall (on_lattice N) ss →
  ∀ st : list Z * list Z,
  length st.1 = 5%nat → length st.2 = 5%nat →
  ∃ st',
    for_in ss (λ s, tally alloy N s.1 s.2) st = Some st' ∧
    length st'.1 = 5%nat ∧ length st'.2 = 5%nat ∧
    total st'.1 + total st'.2
      = total st.1 + total st.2 + Z.of_nat (length ss) ∧
    ∀ k, 0 ≤ k < 5 →
      st'.1 !!! Z.to_nat k = st.1 !!! Z.to_nat k + tallied alloy N true k ss ∧
      st'.2 !!! Z.to_nat k = st.2 !!! Z.to_nat k + tallied alloy N false k ss.
Proof.
  intros Hsq Hbin Hss.
  induction Hss as [|[i j] ss [Hi Hj] _ IH]; intros st Hl1 Hl2.
  - exists st. simpl. repeat split; try done; try lia.
    all: unfold tallied; simpl; lia.
  - simpl in Hi, Hj. assert (1 ≤ N) as HN by lia.
    destruct (tally_step N alloy i j st HN Hsq Hbin Hi Hj Hl1 Hl2)
      as (v & b & st1 & Hv & Hb & Hv01 & Hb04 & Hstep & Hl1' & Hl2' & Htot & Hk).
    destruct (IH st1 Hl1' Hl2') as (st' & Hloop & Hl1'' & Hl2'' & Htot' & Hk').
    exists st'. simpl. rewrite Hstep. simpl.
    split; [done|]. split; [done|]. split; [done|]. split; [lia|].
    intros k Hk5. destruct (Hk k Hk5) as [Ha Hb'].
    destruct (Hk' k Hk5) as [Ha' Hb''].
    rewrite Ha', Hb'', Ha, Hb', !tallied_cons.
    assert (in_bucket alloy N true k (i, j) ↔ v = 0 ∧ b = k) as Ht.
    { unfold in_bucket. simpl. rewrite Hv, Hb. simpl.
      split; intros [H1 H2]; split; try congruence.
      - injection H1 as H1. by apply bool_decide_eq_true in H1.
      - f_equal. by apply bool_decide_eq_true. }
    assert (in_bucket alloy N false k (i, j) ↔ v ≠ 0 ∧ b = k) as Hf.
    { unfold in_bucket. simpl. rewrite Hv, Hb. simpl.
      split; intros [H1 H2]; split; try congruence.
      - injection H1 as H1. by apply bool_decide_eq_false in H1.
      - f_equal. by apply bool_decide_eq_false. }
    split; repeat case_decide; try lia; tauto.
Qed.

(** ** Unlike neighbours and the merged histogram *)

Lemma unlike_neighbours_spec N (alloy : list (list Z)) i j :
  1 ≤ N → square N alloy → binary alloy → 0 ≤ i < N → 0 ≤ j < N →
  ∃ v b,
    np.getitem alloy i j = Some v ∧ Bonds alloy N i j = Some b ∧
    (v = 0 ∨ v = 1) ∧ 0 ≤ b ≤ 4 ∧
    unlike_neighbours alloy N (i, j) = Some (unlike_bonds v b).
Proof.
  intros HN Hsq Hbin Hi Hj.
  destruct (scan_reads_bond_sites N alloy i j HN Hsq Hi Hj) as [Hup Hleft].
  pose proof (Z.mod_pos_bound (i - 2) N ltac:(lia)).
  pose proof (Z.mod_pos_bound i N ltac:(lia)).
  pose proof (Z.mod_pos_bound (j - 2) N ltac:(lia)).
  pose proof (Z.mod_pos_bound j N ltac:(lia)).
  destruct (getitem_is_Some N alloy (i mod N) j) as [a Ha]; try done.
  destruct (getitem_is_Some N alloy ((i - 2) mod N) j) as [b Hb]; try done.
  destruct (getitem_is_Some N alloy i (j mod N)) as [x Hx]; try done.
  destruct (getitem_is_Some N alloy i ((j - 2) mod N)) as [y Hy]; try done.
  destruct (getitem_is_Some N alloy i j) as [v Hv]; try done.
  pose proof (getitem_binary _ _ _ _ Hbin Ha) as Ha01.
  pose proof (getitem_binary _ _ _ _ Hbin Hb) as Hb01.
  pose proof (getitem_binary _ _ _ _ Hbin Hx) as Hx01.
  pose proof (getitem_binary _ _ _ _ Hbin Hy) as Hy01.
  pose proof (getitem_binary _ _ _ _ Hbin Hv) as Hv01.
  exists v, (a + b + x + y).
  unfold unlike_neighbours, scan_sites, Bonds. simpl.
  rewrite Hup, Hleft, Ha, Hb, Hx, Hy, Hv. simpl.
  split; [done|]. split; [done|]. split; [done|]. split; [lia|].
  destruct Hv01 as [-> | ->], Ha01 as [-> | ->], Hb01 as [-> | ->],
    Hx01 as [-> | ->], Hy01 as [-> | ->]; reflexivity.
Qed.

Lemma filter_length_split {A} (P Q R : A → Prop)
    `{∀ x, Decision (P x)} `{∀ x, Decision (Q x)} `{∀ x, Decision (R x)}
    (l : list A) :
  Forall (λ x, (R x ↔ P x ∨ Q x) ∧ ¬ (P x ∧ Q x)) l →
  (length (filter P l) + length (filter Q l) = length (filter R l))%nat.
Proof.
  induction 1 as [|x l [Hiff Hex] _ IH]; [done|].
  rewrite !filter_cons. repeat case_decide; simpl; try lia; tauto.
Qed.

Lemma unlike_buckets N (alloy : list (list Z)) k :
  square N alloy → binary alloy → 0 ≤ k ≤ 4 →
  tallied alloy N true k (all_sites N)
  + tallied alloy N false (4 - k) (all_sites N)
  = sites_with_unlike alloy N k.
Proof.
  intros Hsq Hbin Hk. unfold tallied, sites_with_unlike.
  rewrite <- Nat2Z.inj_add. f_equal. apply filter_length_split.
  eapply Forall_impl; [apply all_sites_on_lattice|].
  intros [i j] [Hi Hj]. simpl in Hi, Hj.
  destruct (unlike_neighbours_spec N alloy i j ltac:(lia) Hsq Hbin Hi Hj)
    as (v & b & Hv & Hb & Hv01 & Hb04 & ->).
  unfold in_bucket, unlike_bonds. simpl. rewrite Hv, Hb. simpl.
  destruct Hv01 as [-> | ->]; simpl; split; try split.
  - intros [= <-]. by left.
  - intros [[_ [= ->]]|[[=] _]]. done.
  - intros [[_ _] [[=] _]].
  - intros [= <-]. right. split; [done|]. f_equal. lia.
  - intros [[[=] _]|[_ [= ->]]]. f_equal. lia.
  - intros [[[=] _] _].
Qed.

Lemma total_add_flip (h1 h2 : list Z) :
  length h1 = 5%nat → length h2 = 5%nat →
  length (np.add h1 (np.flip h2)) = 5%nat ∧
  total (np.add h1 (np.flip h2)) = total h1 + total h2 ∧
  ∀ k, 0 ≤ k < 5 →
    np.add h1 (np.flip h2) !! Z.to_nat k =
    Some (h1 !!! Z.to_nat k + h2 !!! Z.to_nat (4 - k)).
Proof.
  intros Hl1 Hl2. five_cells h1. five_cells h2.
  split; [done|]. split; [unfold total; simpl; lia|].
  intros k Hk. five_cases k; reflexivity.
Qed.

(** What [test2D] leaves in [n] for a binary lattice of shape (N, N). *)
Lemma observed_spec N (alloy : list (list Z)) :
  square N alloy → binary alloy →
  ∃ n,
    observed alloy N = Some n ∧ length n = 5%nat ∧ total n = N * N ∧
    ∀ k, 0 ≤ k < 5 →
      n !! Z.to_nat k = Some (sites_with_unlike alloy N k).
Proof.
  intros Hsq Hbin.
  assert (0 ≤ N) as HN by (destruct Hsq as [<- _]; lia).
  destruct (scan_invariant N alloy (all_sites N) Hsq Hbin
              (all_sites_on_lattice N) (replicate 5 0, replicate 5 0))
    as (st & Hscan & Hl1 & Hl2 & Htot & Hk); [done..|].
  destruct (total_add_flip st.1 st.2 Hl1 Hl2) as (Hlen & Hsum & Hlook).
  exists (np.add st.1 (np.flip st.2)).
  unfold observed. rewrite scan_all_sites, Hscan. simpl.
  split; [done|]. split; [done|]. split.
  - rewrite Hsum, Htot, all_sites_length by done. unfold total. simpl. lia.
  - intros k Hk5. rewrite Hlook by done.
    destruct (Hk k Hk5) as [-> _].
    destruct (Hk (4 - k) ltac:(lia)) as [_ ->].
    rewrite <- unlike_buckets by (done || lia).
    f_equal. five_cases k; simpl; lia.
Qed.

(** ** The binomial histogram *)

Lemma nCr_4 : mapM (nCr 4) (range 5) = Some [1; 4; 6; 4; 1].
Proof. reflexivity. Qed.

Lemma abs_square_Q N :
  (inject_Z (Z.abs N) ^ 2 == inject_Z (N ^ 2))%Q.
Proof.
  simpl. rewrite <- inject_Z_mult. rewrite Z.abs_square.
  by replace (N ^ 2) with (N * N) by lia.
Qed.

Lemma prob_entries Xa N :
  prob Xa N =
  Some [ (1 * Frac Xa 0 * inject_Z (Z.abs N) ^ 2)%Q;
         (4 * Frac Xa 1 * inject_Z (Z.abs N) ^ 2)%Q;
         (6 * Frac Xa 2 * inject_Z (Z.abs N) ^ 2)%Q;
         (4 * Frac Xa 3 * inject_Z (Z.abs N) ^ 2)%Q;
         (1 * Frac Xa 4 * inject_Z (Z.abs N) ^ 2)%Q ].
Proof. reflexivity. Qed.

(** ** Facts about the concrete inputs *)

Lemma sample_alloy_square : square 3 sample_alloy.
Proof. split; [reflexivity | repeat constructor]. Qed.

Lemma sample_alloy_binary : binary sample_alloy.
Proof.
  repeat first [apply List.Forall_nil | apply List.Forall_cons]; lia.
Qed.

Lemma sample_draws_valid : valid_draws 3 sample_draws.
Proof. unfold valid_draws, sample_draws, Qle, Qlt. simpl. lia. Qed.

Lemma half_alloy_square : square 4 half_alloy.
Proof. split; [reflexivity | repeat constructor]. Qed.

Lemma sample_draws_valid_4 : valid_draws 4 sample_draws.
Proof. unfold valid_draws, sample_draws, Qle, Qlt. simpl. lia. Qed.

Lemma exp_taylor_zero x : (x == 0)%Q → (exp_taylor x == 1)%Q.
Proof. intros Hx. unfold exp_taylor. rewrite Hx. reflexivity. Qed.

Lemma room_temperature : (0 < 300)%Q.
Proof. reflexivity. Qed.

Lemma mod_eq_in_range N a b :
  0 < N → a mod N = b mod N → - N < a - b < N → a = b.
Proof.
  intros HN Heq Hab.
  assert ((a - b) mod N = 0) as H0.
  { rewrite Zminus_mod, Heq, Z.sub_diag. by apply Z.mod_0_l, Z.neq_sym, Z.lt_neq. }
  apply Z.mod_divide in H0; [|lia]. destruct H0 as [k Hk].
  destruct (decide (k ≤ -1)); [nia|]. destruct (decide (1 ≤ k)); [nia|].
  assert (k = 0) as -> by lia. lia.
Qed.

(** * The claims *)

(** C1 (the code departs from the claim).  The claim promises, for every
    [N > 0] and every [Xa] in [0, 1], an N x N lattice with [floor(N² Xa)]
    ones.  For [N = 3] and [Xa = 0.5] line 26 truncates both [4.5] and [4.5] to
    4, the buffer has 8 cells, and [reshape(3, 3)] raises: [Create_alloy]
    returns no lattice, whatever the permutation, the draws, [n], [T] and
    [E]; the binary64 evaluation of lines 26-27 raises as well. *)
Theorem Create_alloy_raises_on_odd_half
    (np_exp : Q → Q) (permutation : list Z → list Z) (rng : nat → draws)
    (n : Z) (T E : Q) :
  (∀ l, permutation l ≡ₚ l) →
  Create_alloy np_exp permutation rng 3 (1 # 2) n T E = None ∧
  initial_alloy_binary64 permutation 3 binary64.half = None.
Proof.
  intros Hperm. split.
  - unfold Create_alloy.
    rewrite (initial_alloy_raises permutation 3 (1 # 2) Hperm);
      [done|done|done|].
    intros [m Hm]. unfold Qeq in Hm. simpl in Hm. lia.
  - exact (proj1 (initial_alloy_binary64_raises permutation Hperm)).
Qed.

Lemma Create_alloy_raises_on_odd_half_witness :
  Create_alloy exp_taylor (λ l, l) (λ _, sample_draws) 3 (1 # 2) 10 300 (-1 # 10)
  = None ∧
  initial_alloy_binary64 (λ l, l) 3 binary64.half = None.
Proof.
  apply (Create_alloy_raises_on_odd_half exp_taylor (λ l, l)
           (λ _, sample_draws) 10 300 (-1 # 10)).
  intros l. reflexivity.
Defined.

(** C2 (the code departs from the claim).  The claim takes the backward
    neighbour at [(index - 1) mod N] on the axis of the direction.  On every
    lattice with [N >= 2] the swap step selects, for direction 1 ("up"), the
    row [(r - 2) mod N], which is never the row [(r - 1) mod N] of the claim;
    for direction 4 ("left") it selects the column [(r - 2) mod N], computed
    from the row index, which is the column [(c - 1) mod N] of the claim only
    when the two happen to coincide; the bond computation reads the rows
    [(r - 2) mod N] and the columns [(c - 2) mod N], never those of the
    claim.  For directions 2 and 3 the code agrees with the formula
    [index mod N] of the claim, which is the drawn site itself. *)
Theorem select_neighbour_misses_backward_rule N d :
  2 ≤ N → valid_draws N d →
  (random_neighbour d = 1 →
   select_neighbour N d = (((random_atom d).1 - 2) mod N, (random_atom d).2) ∧
   select_neighbour N d
     ≠ spec_neighbour N (random_atom d) (random_neighbour d)) ∧
  (random_neighbour d = 4 →
   select_neighbour N d = ((random_atom d).1, ((random_atom d).1 - 2) mod N) ∧
   (select_neighbour N d
      = spec_neighbour N (random_atom d) (random_neighbour d)
    ↔ ((random_atom d).1 - 2) mod N = ((random_atom d).2 - 1) mod N)) ∧
  (random_neighbour d = 2 ∨ random_neighbour d = 3 →
   select_neighbour N d
     = spec_neighbour N (random_atom d) (random_neighbour d) ∧
   select_neighbour N d = random_atom d) ∧
  ∀ r c, 0 ≤ r < N → 0 ≤ c < N →
    bond_sites N r c
      = [(r mod N, c); ((r - 2) mod N, c); (r, c mod N); (r, (c - 2) mod N)] ∧
    (r - 2) mod N ≠ (r - 1) mod N ∧ (c - 2) mod N ≠ (c - 1) mod N.
Proof.
  intros HN (Hr & Hc & _).
  assert (∀ x, (x - 2) mod N ≠ (x - 1) mod N) as Hoff.
  { intros x Heq. apply (mod_eq_in_range N) in Heq; lia. }
  unfold select_neighbour, spec_neighbour.
  destruct (random_atom d) as [r c]. simpl in *.
  split; [|split; [|split]].
  - intros ->. simpl. split; [done|]. intros [= Heq]. by apply Hoff in Heq.
  - intros ->. simpl. split; [done|]. split.
    + by intros [= Heq].
    + by intros ->.
  - intros [-> | ->]; simpl; rewrite Z.mod_small by lia; done.
  - intros r' c' Hr' Hc'. split; [done|]. split; apply Hoff.
Qed.

Lemma select_neighbour_misses_backward_rule_witness :
  select_neighbour 3 sample_draws = ((0 - 2) mod 3, 0) ∧
  select_neighbour 3 sample_draws = (1, 0) ∧
  spec_neighbour 3 (random_atom sample_draws) (random_neighbour sample_draws)
    = (2, 0) ∧
  select_neighbour 3 sample_draws
    ≠ spec_neighbour 3 (random_atom sample_draws)
        (random_neighbour sample_draws).
Proof.
  destruct (select_neighbour_misses_backward_rule 3 sample_draws ltac:(lia)
              sample_draws_valid) as (Hup & _).
  destruct (Hup eq_refl) as [Hsel Hne].
  split; [exact Hsel|]. split; [reflexivity|]. split; [reflexivity|].
  exact Hne.
Defined.

Lemma neighbour_sum_Bonds (alloy : list (list Z)) N s :
  neighbour_sum alloy N s = Bonds alloy N s.1 s.2.
Proof. destruct s. symmetry. apply Bonds_neighbour_sum. Qed.

(** C3.  In a swap step on a binary N x N lattice the energy difference is
    defined; it is 0 when the two selected atoms are equal, and otherwise it
    is [E * ((after1 + after2) - (before1 + before2))], where the unlike-bond
    count of a site is the sum of its four resolved neighbours when its
    species is 0 and 4 minus that sum when it is 1, "before" with the site's
    own species and "after" with the species of the other site. *)
Theorem swap_energy_formula N (alloy : list (list Z)) (E : Q) d :
  0 < N → square N alloy → binary alloy → valid_draws N d →
  ∃ atom1 atom2 e,
    np.getitem alloy (random_atom d).1 (random_atom d).2 = Some atom1 ∧
    np.getitem alloy (select_neighbour N d).1 (select_neighbour N d).2
      = Some atom2 ∧
    energy alloy N E (random_atom d) (select_neighbour N d) atom1 atom2
      = Some e ∧
    (atom1 = atom2 → e = 0%Q) ∧
    (atom1 ≠ atom2 →
     ∃ sum1 sum2,
       neighbour_sum alloy N (random_atom d) = Some sum1 ∧
       neighbour_sum alloy N (select_neighbour N d) = Some sum2 ∧
       let before1 := unlike_bonds atom1 sum1 in
       let after1 := unlike_bonds atom2 sum1 in
       let before2 := unlike_bonds atom2 sum2 in
       let after2 := unlike_bonds atom1 sum2 in
       e = (E * inject_Z ((after1 + after2) - (before1 + before2)))%Q).
Proof.
  intros HN Hsq Hbin Hd.
  pose proof (select_neighbour_on_lattice N d HN Hd) as [Hr2 Hc2].
  destruct Hd as (Hr1 & Hc1 & _).
  destruct (getitem_is_Some N alloy _ _ Hsq Hr1 Hc1) as [atom1 Hg1].
  destruct (getitem_is_Some N alloy _ _ Hsq Hr2 Hc2) as [atom2 Hg2].
  destruct (Bonds_is_Some N alloy _ _ HN Hsq Hr1 Hc1) as [sum1 Hs1].
  destruct (Bonds_is_Some N alloy _ _ HN Hsq Hr2 Hc2) as [sum2 Hs2].
  pose proof (getitem_binary _ _ _ _ Hbin Hg1) as H1.
  pose proof (getitem_binary _ _ _ _ Hbin Hg2) as H2.
  exists atom1, atom2. unfold energy. rewrite Hs1, Hs2. simpl.
  destruct (Z.eqb_spec atom1 atom2) as [Heq|Hne].
  - exists 0%Q. repeat split; try done.
  - destruct H1 as [-> | ->], H2 as [-> | ->]; try done; simpl;
      (eexists; split; [done|]; split; [done|]; split; [reflexivity|];
       split; [done|]; intros _; exists sum1, sum2;
       rewrite !neighbour_sum_Bonds; split; [done|]; split; [done|];
       unfold unlike_bonds; simpl; do 2 f_equal; lia).
Qed.

Lemma swap_energy_formula_witness :
  ∃ atom1 atom2 e,
    np.getitem sample_alloy 0 0 = Some atom1 ∧
    np.getitem sample_alloy 1 0 = Some atom2 ∧
    energy sample_alloy 3 (-1 # 10) (0, 0) (1, 0) atom1 atom2 = Some e ∧
    (atom1 = atom2 → e = 0%Q) ∧
    (atom1 ≠ atom2 →
     ∃ sum1 sum2,
       neighbour_sum sample_alloy 3 (0, 0) = Some sum1 ∧
       neighbour_sum sample_alloy 3 (1, 0) = Some sum2 ∧
       e = ((-1 # 10) * inject_Z
              ((unlike_bonds atom2 sum1 + unlike_bonds atom1 sum2)
               - (unlike_bonds atom1 sum1 + unlike_bonds atom2 sum2)))%Q).
Proof.
  apply (swap_energy_formula 3 sample_alloy (-1 # 10) sample_draws).
  - lia.
  - apply sample_alloy_square.
  - apply sample_alloy_binary.
  - apply sample_draws_valid.
Defined.



(** C5.  One call of [MC_swap] on an N x N lattice returns a lattice with the
    same number of cells equal to 1 and the same number equal to 0; so does
    the loop of [n] sequential swap steps, and the lattice returned by
    [Create_alloy] has the counts of the initial lattice it was built from. *)
Theorem species_conservation (np_exp : Q → Q) (permutation : list Z → list Z)
    (rng : nat → draws) N (Xa : Q) (n : Z) (T E : Q)
    (alloy alloy0 : list (list Z)) d :
  0 < N → (0 < T)%Q → square N alloy → valid_draws N d →
  (∀ i, valid_draws N (rng i)) →
  initial_alloy permutation N Xa = Some alloy0 →
  (∃ alloy',
     MC_swap np_exp alloy N E T d = Some alloy' ∧
     count_cells 1 alloy' = count_cells 1 alloy ∧
     count_cells 0 alloy' = count_cells 0 alloy) ∧
  (∃ alloy',
     swap_loop np_exp rng (Z.to_nat n) 0 alloy N E T = Some alloy' ∧
     count_cells 1 alloy' = count_cells 1 alloy ∧
     count_cells 0 alloy' = count_cells 0 alloy) ∧
  (∃ alloy',
     Create_alloy np_exp permutation rng N Xa n T E = Some alloy' ∧
     count_cells 1 alloy' = count_cells 1 alloy0 ∧
     count_cells 0 alloy' = count_cells 0 alloy0).
Proof.
  intros HN HT Hsq Hd Hrng Hinit. split; [|split].
  - destruct (MC_swap_preserves np_exp N alloy E T d HN HT Hsq Hd)
      as (alloy' & Hstep & _ & Hcount & _).
    exists alloy'. auto.
  - destruct (swap_loop_preserves np_exp rng N E T (Z.to_nat n) HN HT Hrng
                0%nat alloy Hsq) as (alloy' & Hloop & _ & Hcount & _).
    exists alloy'. auto.
  - assert (square N alloy0) as Hsq0.
    { unfold initial_alloy, random_matrix in Hinit.
      destruct (np.ones _); [|done]. destruct (np.zeros _); [|done].
      simpl in Hinit. by apply reshape_spec in Hinit as [? _]. }
    destruct (swap_loop_preserves np_exp rng N E T (Z.to_nat n) HN HT Hrng
                0%nat alloy0 Hsq0) as (alloy' & Hloop & _ & Hcount & _).
    exists alloy'. unfold Create_alloy. rewrite Hinit. simpl. auto.
Qed.

Lemma species_conservation_witness :
  (∃ alloy',
     MC_swap exp_taylor half_alloy 4 (-1 # 10) 300 sample_draws = Some alloy' ∧
     count_cells 1 alloy' = count_cells 1 half_alloy ∧
     count_cells 0 alloy' = count_cells 0 half_alloy) ∧
  (∃ alloy',
     swap_loop exp_taylor (λ _, sample_draws) (Z.to_nat 3) 0 half_alloy 4
       (-1 # 10) 300 = Some alloy' ∧
     count_cells 1 alloy' = count_cells 1 half_alloy ∧
     count_cells 0 alloy' = count_cells 0 half_alloy) ∧
  (∃ alloy',
     Create_alloy exp_taylor (λ l, l) (λ _, sample_draws) 4 (1 # 2) 3 300
       (-1 # 10) = Some alloy' ∧
     count_cells 1 alloy' = count_cells 1 half_alloy ∧
     count_cells 0 alloy' = count_cells 0 half_alloy).
Proof.
  apply (species_conservation exp_taylor (λ l, l) (λ _, sample_draws) 4
           (1 # 2) 3 300 (-1 # 10) half_alloy half_alloy sample_draws).
  - lia.
  - apply room_temperature.
  - apply half_alloy_square.
  - apply sample_draws_valid_4.
  - intros _. apply sample_draws_valid_4.
  - reflexivity.
Defined.

(** C6.  [MC_swap] leaves every cell other than the two selected sites as it
    was; the returned lattice is the given lattice when the two selected
    atoms are equal, and when the step is rejected (neither [e < 0] nor
    [exp(-e / kT)] above the draw). *)
Theorem MC_swap_frame (np_exp : Q → Q) N (alloy : list (list Z)) (E T : Q) d :
  0 < N → (0 < T)%Q → square N alloy → valid_draws N d →
  ∃ atom1 atom2 e alloy',
    np.getitem alloy (random_atom d).1 (random_atom d).2 = Some atom1 ∧
    np.getitem alloy (select_neighbour N d).1 (select_neighbour N d).2
      = Some atom2 ∧
    energy alloy N E (random_atom d) (select_neighbour N d) atom1 atom2
      = Some e ∧
    MC_swap np_exp alloy N E T d = Some alloy' ∧
    (∀ s, on_lattice N s → s ≠ random_atom d → s ≠ select_neighbour N d →
          np.getitem alloy' s.1 s.2 = np.getitem alloy s.1 s.2) ∧
    (atom1 = atom2 → alloy' = alloy) ∧
    (¬ (e < 0)%Q → ¬ (uniform d < np_exp (- e / (k_B * T)))%Q →
     alloy' = alloy).
Proof.
  intros HN HT Hsq Hd.
  destruct (MC_swap_cases np_exp N alloy E T d HN HT Hsq Hd)
    as (atom1 & atom2 & e & Hg1 & Hg2 & He & Hstep).
  pose proof (select_neighbour_on_lattice N d HN Hd) as Hs2.
  assert (on_lattice N (random_atom d)) as Hs1
    by (destruct Hd as (? & ? & _); by split).
  exists atom1, atom2, e.
  destruct (Qlt_bool e 0 || Qlt_bool (uniform d) (np_exp (- e / (k_B * T))%Q))
    eqn:Hcond.
  - destruct (exchange_spec N alloy _ _ atom1 atom2 Hsq Hs1 Hs2 Hg1 Hg2)
      as (alloy' & Hex & _ & _ & _ & _ & Hframe & Hsame & _).
    exists alloy'. rewrite Hstep, Hex.
    split; [done|]. split; [done|]. split; [done|]. split; [done|].
    split; [done|]. split; [done|].
    intros Hnlt Hnu. exfalso.
    apply orb_true_iff in Hcond as [H|H]; apply Qlt_bool_iff in H; auto.
  - exists alloy. rewrite Hstep. repeat split; done.
Qed.

Lemma MC_swap_frame_witness :
  ∃ atom1 atom2 e alloy',
    np.getitem sample_alloy 0 0 = Some atom1 ∧
    np.getitem sample_alloy 1 0 = Some atom2 ∧
    energy sample_alloy 3 (1 # 10) (0, 0) (1, 0) atom1 atom2 = Some e ∧
    MC_swap exp_taylor sample_alloy 3 (1 # 10) 300 sample_draws
      = Some alloy' ∧
    (∀ s, on_lattice 3 s → s ≠ (0, 0) → s ≠ (1, 0) →
          np.getitem alloy' s.1 s.2 = np.getitem sample_alloy s.1 s.2) ∧
    (atom1 = atom2 → alloy' = sample_alloy) ∧
    (¬ (e < 0)%Q → ¬ (1 # 2 < exp_taylor (- e / (k_B * 300)))%Q →
     alloy' = sample_alloy).
Proof.
  apply (MC_swap_frame exp_taylor 3 sample_alloy (1 # 10) 300 sample_draws).
  - lia.
  - apply room_temperature.
  - apply sample_alloy_square.
  - apply sample_draws_valid.
Defined.



(** C8.  For every binary N x N lattice the merged histogram [n] of [test2D]
    is produced, has length 5, and its entries sum to [N²]. *)
Theorem observed_histogram_total N (alloy : list (list Z)) :
  square N alloy → binary alloy →
  ∃ n, observed alloy N = Some n ∧ length n = 5%nat ∧ total n = N ^ 2.
Proof.
  intros Hsq Hbin.
  destruct (observed_spec N alloy Hsq Hbin) as (n & Hobs & Hlen & Htot & _).
  exists n. split; [done|]. split; [done|]. rewrite Htot. lia.
Qed.

Lemma observed_histogram_total_witness :
  ∃ n, observed sample_alloy 3 = Some n ∧ length n = 5%nat ∧ total n = 3 ^ 2.
Proof.
  apply (observed_histogram_total 3 sample_alloy).
  - apply sample_alloy_square.
  - apply sample_alloy_binary.
Defined.

(** C9.  The theoretical histogram [prob] has five entries, entry [k] being
    [C(4,k) * (Xa * Xa^(4-k) * (1-Xa)^k + (1-Xa) * Xa^k * (1-Xa)^(4-k)) * N²],
    and in exact rational arithmetic they sum to [N²]; this holds for every
    [N] and every [Xa], in particular for [N >= 1] and [Xa] in [0, 1]. *)
Theorem theoretical_histogram_total (Xa : Q) (N : Z) :
  ∃ p,
    prob Xa N = Some p ∧ length p = 5%nat ∧
    mapM (nCr 4) (range 5) = Some [1; 4; 6; 4; 1] ∧
    Forall2 (λ c x, x == inject_Z c.2 * Frac Xa c.1 * inject_Z (N ^ 2))%Q
            [(0, 1); (1, 4); (2, 6); (3, 4); (4, 1)] p ∧
    (Qtotal p == inject_Z (N ^ 2))%Q.
Proof.
  eexists. split; [apply prob_entries|]. split; [reflexivity|].
  split; [apply nCr_4|]. split.
  - repeat (constructor; [cbv beta; rewrite <- abs_square_Q; reflexivity|]).
    constructor.
  - rewrite <- abs_square_Q. unfold Qtotal, Frac. simpl.
    set (m := inject_Z (Z.abs N)). ring.
Qed.

(** C10.  For every binary N x N lattice and each [k] in 0..4, entry [k] of
    the merged histogram [n] of [test2D] is the number of lattice sites whose
    four resolved neighbours contain exactly [k] cells with a value different
    from the site's own. *)
Theorem observed_histogram_counts N (alloy : list (list Z)) :
  square N alloy → binary alloy →
  ∃ n,
    observed alloy N = Some n ∧
    ∀ k, 0 ≤ k ≤ 4 → n !! Z.to_nat k = Some (sites_with_unlike alloy N k).
Proof.
  intros Hsq Hbin.
  destruct (observed_spec N alloy Hsq Hbin) as (n & Hobs & _ & _ & Hk).
  exists n. split; [done|]. intros k Hk4. apply Hk. lia.
Qed.

Lemma observed_histogram_counts_witness :
  ∃ n,
    observed sample_alloy 3 = Some n ∧
    ∀ k, 0 ≤ k ≤ 4 →
         n !! Z.to_nat k = Some (sites_with_unlike sample_alloy 3 k).
Proof.
  apply (observed_histogram_counts 3 sample_alloy).
  - apply sample_alloy_square.
  - apply sample_alloy_binary.
Defined.

(** * Further properties of the code *)

(** ** nCr *)

Lemma pascal_gt n r : (n < r)%nat → pascal n r = 0%nat.
Proof.
  revert r. induction n as [|n IH]; intros [|r] Hlt; simpl; try lia.
  rewrite !IH by lia. done.
Qed.

Lemma pascal_diag n : pascal n n = 1%nat.
Proof.
  induction n as [|n IH]; simpl; [done|]. rewrite IH, pascal_gt by lia. done.
Qed.

Lemma pascal_fact n r :
  (r ≤ n)%nat → (pascal n r * (fact r * fact (n - r)) = fact n)%nat.
Proof.
  revert r. induction n as [|n IH]; intros r Hr.
  - assert (r = 0%nat) as -> by lia. done.
  - destruct r as [|r]; [simpl; lia|].
    destruct (decide (r = n)) as [->|Hne].
    + rewrite pascal_diag, Nat.sub_diag. simpl. lia.
    + assert (r ≤ n)%nat as H1 by lia. assert (S r ≤ n)%nat as H2 by lia.
      pose proof (IH r H1) as IH1. pose proof (IH (S r) H2) as IH2.
      replace (n - r)%nat with (S (n - S r)) in IH1 by lia.
      change (pascal (S n) (S r)) with (pascal n r + pascal n (S r))%nat.
      replace (S n - S r)%nat with (S (n - S r)) by lia.
      set (a := pascal n r) in *. set (b := pascal n (S r)) in *.
      set (k := (n - S r)%nat) in *.
      change (fact (S r)) with (S r * fact r)%nat in *.
      change (fact (S k)) with (S k * fact k)%nat in *.
      change (fact (S n)) with (S n * fact n)%nat.
      assert (S n = S r + S k)%nat as -> by lia.
      nia.
Qed.

Lemma nCr_in_range n r :
  0 ≤ r ≤ n →
  nCr n r = Some (Z.of_nat (pascal (Z.to_nat n) (Z.to_nat r))).
Proof.
  intros Hr. unfold nCr, factorial. rewrite !decide_False by lia. simpl.
  f_equal.
  pose proof (pascal_fact (Z.to_nat n) (Z.to_nat r) ltac:(lia)) as Hp.
  replace (Z.to_nat (n - r)) with (Z.to_nat n - Z.to_nat r)%nat by lia.
  set (p := pascal _ _) in *. set (a := fact (Z.to_nat r)) in *.
  set (b := fact (Z.to_nat n - Z.to_nat r)) in *.
  pose proof (lt_O_fact (Z.to_nat r)). 
  pose proof (lt_O_fact (Z.to_nat n - Z.to_nat r)).
  rewrite <- Hp.
  replace (Z.of_nat (p * (a * b))) with (Z.of_nat p * Z.of_nat b * Z.of_nat a)
    by lia.
  rewrite Z.div_mul by (unfold a; lia).
  rewrite Z.div_mul by (unfold b; lia). done.
Qed.

Lemma nCr_out_of_range n r : ¬ (0 ≤ r ≤ n) → nCr n r = None.
Proof.
  intros Hr. unfold nCr, factorial.
  destruct (decide (n < 0)); [done|]. simpl.
  destruct (decide (r < 0)); [done|]. simpl.
  rewrite decide_True by lia. done.
Qed.

(** X1.  [nCr(n, r)] returns a value exactly when [0 <= r <= n]; the value
    is then the entry of Pascal's triangle (both floor divisions are exact),
    and outside that range [math.factorial] raises on a negative argument. *)
Theorem nCr_pascal n r :
  (0 ≤ r ≤ n ↔ is_Some (nCr n r)) ∧
  ∀ v, nCr n r = Some v →
       v = Z.of_nat (pascal (Z.to_nat n) (Z.to_nat r)) ∧
       factorial n = Some (v * Z.of_nat (fact (Z.to_nat r))
                             * Z.of_nat (fact (Z.to_nat (n - r)))).
Proof.
  destruct (decide (0 ≤ r ≤ n)) as [Hr|Hr].
  - rewrite (nCr_in_range n r Hr). split; [split; [by eexists|done]|].
    intros v [= <-]. split; [done|].
    unfold factorial. rewrite decide_False by lia. f_equal.
    pose proof (pascal_fact (Z.to_nat n) (Z.to_nat r) ltac:(lia)) as Hp.
    replace (Z.to_nat (n - r)) with (Z.to_nat n - Z.to_nat r)%nat by lia.
    rewrite <- Hp. lia.
  - rewrite (nCr_out_of_range n r Hr). split; [|done].
    split; [done|]. by intros [? [=]].
Qed.

(** X2.  [nCr(n, r)] and [nCr(n, n - r)] agree for all integers, both when
    they return a value and when they raise. *)
Theorem nCr_symmetric n r : nCr n r = nCr n (n - r).
Proof.
  destruct (decide (0 ≤ r ≤ n)) as [Hr|Hr].
  - rewrite (nCr_in_range n r Hr), (nCr_in_range n (n - r)) by lia.
    do 2 f_equal.
    pose proof (pascal_fact (Z.to_nat n) (Z.to_nat r) ltac:(lia)) as H1.
    pose proof (pascal_fact (Z.to_nat n) (Z.to_nat (n - r)) ltac:(lia)) as H2.
    replace (Z.to_nat n - Z.to_nat (n - r))%nat with (Z.to_nat r) in H2 by lia.
    replace (Z.to_nat n - Z.to_nat r)%nat with (Z.to_nat (n - r)) in H1 by lia.
    pose proof (lt_O_fact (Z.to_nat r)).
    pose proof (lt_O_fact (Z.to_nat (n - r))).
    rewrite (Nat.mul_comm (fact (Z.to_nat (n - r)))) in H2.
    rewrite <- H2 in H1. apply Nat.mul_cancel_r in H1; [done|]. nia.
  - rewrite (nCr_out_of_range n r Hr), (nCr_out_of_range n (n - r)) by lia.
    done.
Qed.

(** ** MC_swap *)

(** Around a site of the lattice the "down" and "right" cells that the code
    reads are the site itself. *)
Lemma Bonds_self N (alloy : list (list Z)) r c v :
  0 < N → square N alloy → 0 ≤ r < N → 0 ≤ c < N →
  np.getitem alloy r c = Some v →
  ∃ up left,
    np.getitem alloy ((r - 2) mod N) c = Some up ∧
    np.getitem alloy r ((c - 2) mod N) = Some left ∧
    Bonds alloy N r c = Some (v + up + v + left).
Proof.
  intros HN Hsq Hr Hc Hv.
  pose proof (Z.mod_pos_bound (r - 2) N HN).
  pose proof (Z.mod_pos_bound (c - 2) N HN).
  destruct (getitem_is_Some N alloy ((r - 2) mod N) c) as [up Hup]; try done.
  destruct (getitem_is_Some N alloy r ((c - 2) mod N)) as [left Hleft];
    try done.
  exists up, left. split; [done|]. split; [done|].
  unfold Bonds. rewrite !(Z.mod_small r N), !(Z.mod_small c N) by lia.
  by rewrite Hv, Hup, Hleft.
Qed.

Lemma room_usable : usable_temperature room.
Proof. split; vm_compute; reflexivity. Qed.

(** X3.  For a float temperature [T > 0] whose binary64 product
    [kT = 8.617332*10**-5*T] is not zero, one call of [MC_swap] on an N x N
    lattice of zeros and ones returns an N x N lattice of zeros and ones. *)
Theorem MC_swap_keeps_lattice (np_exp : Q → Q) N (alloy : list (list Z))
    (E : Q) (T : SpecFloat.spec_float) d :
  0 < N → usable_temperature T → square N alloy → binary alloy →
  valid_draws N d →
  ∃ alloy',
    MC_swap np_exp alloy N E (float_Q T) d = Some alloy' ∧
    square N alloy' ∧ binary alloy'.
Proof.
  intros HN [HT _] Hsq Hbin Hd.
  destruct (MC_swap_preserves np_exp N alloy E (float_Q T) d HN HT Hsq Hd)
    as (alloy' & Hstep & Hsq' & _ & Hbin').
  exists alloy'. auto.
Qed.

Lemma MC_swap_keeps_lattice_witness :
  ∃ alloy',
    MC_swap exp_taylor sample_alloy 3 (-1 # 10) (float_Q room) sample_draws
      = Some alloy' ∧
    square 3 alloy' ∧ binary alloy'.
Proof.
  apply (MC_swap_keeps_lattice exp_taylor 3 sample_alloy (-1 # 10) room
           sample_draws).
  - lia.
  - apply room_usable.
  - apply sample_alloy_square.
  - apply sample_alloy_binary.
  - apply sample_draws_valid.
Defined.

(** X4.  When the drawn direction is 2 ("right") or 3 ("down") the selected
    neighbour is the drawn site itself, and for a float temperature [T > 0]
    whose binary64 product [kT] is not zero the step returns the lattice
    unchanged, whatever [E] and the uniform draw. *)
Theorem forward_step_is_identity (np_exp : Q → Q) N (alloy : list (list Z))
    (E : Q) (T : SpecFloat.spec_float) d :
  0 < N → usable_temperature T → square N alloy → valid_draws N d →
  random_neighbour d = 2 ∨ random_neighbour d = 3 →
  select_neighbour N d = random_atom d ∧
  MC_swap np_exp alloy N E (float_Q T) d = Some alloy.
Proof.
  intros HN [HT _] Hsq Hd Hdir.
  assert (select_neighbour N d = random_atom d) as Hself.
  { destruct Hd as (Hr & Hc & _). unfold select_neighbour.
    destruct (random_atom d) as [r c]. simpl in *.
    destruct Hdir as [-> | ->]; simpl; by rewrite Z.mod_small by lia. }
  split; [done|].
  destruct (MC_swap_cases np_exp N alloy E (float_Q T) d HN HT Hsq Hd)
    as (atom1 & atom2 & e & Hg1 & Hg2 & _ & ->).
  destruct (Qlt_bool e 0 || Qlt_bool _ _); [|done].
  assert (on_lattice N (random_atom d)) as Hs1
    by (destruct Hd as (? & ? & _); by split).
  rewrite Hself in *.
  assert (atom1 = atom2) as -> by congruence.
  destruct (exchange_spec N alloy (random_atom d) (random_atom d) atom2 atom2
              Hsq Hs1 Hs1 Hg1 Hg1) as (alloy' & -> & _ & _ & _ & _ & _ & Hid & _).
  by rewrite Hid.
Qed.

Lemma forward_step_is_identity_witness :
  select_neighbour 3 (Draws (2, 1) 3 (1 # 2)) = (2, 1) ∧
  MC_swap exp_taylor sample_alloy 3 (1 # 10) (float_Q room)
    (Draws (2, 1) 3 (1 # 2)) = Some sample_alloy.
Proof.
  apply (forward_step_is_identity exp_taylor 3 sample_alloy (1 # 10) room
           (Draws (2, 1) 3 (1 # 2))).
  - lia.
  - apply room_usable.
  - apply sample_alloy_square.
  - unfold valid_draws, Qle, Qlt. simpl. lia.
  - right. reflexivity.
Defined.

(** X5.  For direction 4 ("left") the swap partner is taken in the site's
    row at column [(r - 2) mod N], computed from the row index; it is the
    cell [(r, (c - 2) mod N)] that the bond computation reads as the left
    neighbour exactly when the site lies on the diagonal [r = c]. *)
Theorem left_partner_on_diagonal N d :
  0 < N → valid_draws N d → random_neighbour d = 4 →
  select_neighbour N d = ((random_atom d).1, ((random_atom d).1 - 2) mod N) ∧
  (select_neighbour N d = ((random_atom d).1, ((random_atom d).2 - 2) mod N)
   ↔ (random_atom d).1 = (random_atom d).2).
Proof.
  intros HN (Hr & Hc & _) Hdir. unfold select_neighbour. rewrite Hdir. simpl.
  split; [done|]. split.
  - intros [= Heq]. apply (mod_eq_in_range N) in Heq; lia.
  - by intros ->.
Qed.

Lemma left_partner_on_diagonal_witness :
  select_neighbour 3 (Draws (0, 1) 4 (1 # 2)) = (0, (0 - 2) mod 3) ∧
  (select_neighbour 3 (Draws (0, 1) 4 (1 # 2)) = (0, (1 - 2) mod 3) ↔ 0 = 1).
Proof.
  apply (left_partner_on_diagonal 3 (Draws (0, 1) 4 (1 # 2))).
  - lia.
  - unfold valid_draws, Qle, Qlt. simpl. lia.
  - reflexivity.
Defined.

Lemma energy_multiple N (alloy : list (list Z)) (E : Q) d :
  0 < N → square N alloy → binary alloy → valid_draws N d →
  ∃ atom1 atom2 e k,
    np.getitem alloy (random_atom d).1 (random_atom d).2 = Some atom1 ∧
    np.getitem alloy (select_neighbour N d).1 (select_neighbour N d).2
      = Some atom2 ∧
    energy alloy N E (random_atom d) (select_neighbour N d) atom1 atom2
      = Some e ∧
    (e == E * inject_Z (2 * k))%Q ∧ 0 ≤ k ≤ 4 ∧ (atom1 = atom2 → k = 0).
Proof.
  intros HN Hsq Hbin Hd.
  pose proof (select_neighbour_on_lattice N d HN Hd) as [Hr2 Hc2].
  destruct Hd as (Hr1 & Hc1 & _).
  destruct (getitem_is_Some N alloy _ _ Hsq Hr1 Hc1) as [atom1 Hg1].
  destruct (getitem_is_Some N alloy _ _ Hsq Hr2 Hc2) as [atom2 Hg2].
  destruct (Bonds_self N alloy _ _ atom1 HN Hsq Hr1 Hc1 Hg1)
    as (up1 & left1 & Hu1 & Hl1 & HB1).
  destruct (Bonds_self N alloy _ _ atom2 HN Hsq Hr2 Hc2 Hg2)
    as (up2 & left2 & Hu2 & Hl2 & HB2).
  pose proof (getitem_binary _ _ _ _ Hbin Hg1) as H1.
  pose proof (getitem_binary _ _ _ _ Hbin Hg2) as H2.
  pose proof (getitem_binary _ _ _ _ Hbin Hu1) as H3.
  pose proof (getitem_binary _ _ _ _ Hbin Hl1) as H4.
  pose proof (getitem_binary _ _ _ _ Hbin Hu2) as H5.
  pose proof (getitem_binary _ _ _ _ Hbin Hl2) as H6.
  exists atom1, atom2. unfold energy. rewrite HB1, HB2. simpl.
  destruct H1 as [-> | ->], H2 as [-> | ->]; simpl.
  - exists 0%Q, 0. split; [done|]. split; [done|]. split; [done|].
    split; [|split; [lia | done]].
    change (inject_Z (2 * 0)) with 0%Q. by rewrite Qmult_0_r.
  - exists (E * inject_Z
                (4 - (0 + up1 + 0 + left1) + (1 + up2 + 1 + left2)
                 - (0 + up1 + 0 + left1) - (4 - (1 + up2 + 1 + left2))))%Q,
           (2 + up2 + left2 - up1 - left1).
    split; [done|]. split; [done|]. split; [done|].
    split; [|split; [lia | done]].
    match goal with |- (_ * inject_Z ?a == _ * inject_Z ?b)%Q =>
      replace a with b by lia end. reflexivity.
  - exists (E * inject_Z
                (1 + up1 + 1 + left1 + (4 - (0 + up2 + 0 + left2))
                 - (4 - (1 + up1 + 1 + left1)) - (0 + up2 + 0 + left2)))%Q,
           (2 + up1 + left1 - up2 - left2).
    split; [done|]. split; [done|]. split; [done|].
    split; [|split; [lia | done]].
    match goal with |- (_ * inject_Z ?a == _ * inject_Z ?b)%Q =>
      replace a with b by lia end. reflexivity.
  - exists 0%Q, 0. split; [done|]. split; [done|]. split; [done|].
    split; [|split; [lia | done]].
    change (inject_Z (2 * 0)) with 0%Q. by rewrite Qmult_0_r.
Qed.

(** X6.  On a binary N x N lattice the energy difference of a swap step is
    [E] times an even number between 0 and 8: because each site counts
    itself twice among its four neighbours, exchanging two unlike atoms never
    lowers the bond count that multiplies [E]. *)
Theorem swap_energy_is_even_multiple N (alloy : list (list Z)) (E : Q) d :
  0 < N → square N alloy → binary alloy → valid_draws N d →
  ∃ atom1 atom2 e k,
    np.getitem alloy (random_atom d).1 (random_atom d).2 = Some atom1 ∧
    np.getitem alloy (select_neighbour N d).1 (select_neighbour N d).2
      = Some atom2 ∧
    energy alloy N E (random_atom d) (select_neighbour N d) atom1 atom2
      = Some e ∧
    (e == E * inject_Z (2 * k))%Q ∧ 0 ≤ k ≤ 4.
Proof.
  intros HN Hsq Hbin Hd.
  destruct (energy_multiple N alloy E d HN Hsq Hbin Hd)
    as (atom1 & atom2 & e & k & ? & ? & ? & ? & ? & _).
  by exists atom1, atom2, e, k.
Qed.

Lemma swap_energy_is_even_multiple_witness :
  ∃ atom1 atom2 e k,
    np.getitem sample_alloy 0 0 = Some atom1 ∧
    np.getitem sample_alloy 1 0 = Some atom2 ∧
    energy sample_alloy 3 (-1 # 10) (0, 0) (1, 0) atom1 atom2 = Some e ∧
    (e == (-1 # 10) * inject_Z (2 * k))%Q ∧ 0 ≤ k ≤ 4.
Proof.
  apply (swap_energy_is_even_multiple 3 sample_alloy (-1 # 10) sample_draws).
  - lia.
  - apply sample_alloy_square.
  - apply sample_alloy_binary.
  - apply sample_draws_valid.
Defined.

(** X7.  With a non-positive interaction energy [E] every swap step on a
    binary lattice is accepted: the two selected cells hold each other's
    former values afterwards, whatever the uniform draw, for every float
    temperature [T > 0] whose binary64 product [kT] is not zero. *)
Theorem nonpositive_E_always_swaps (np_exp : Q → Q) N (alloy : list (list Z))
    (E : Q) (T : SpecFloat.spec_float) d :
  (∀ x, (x == 0)%Q → (np_exp x == 1)%Q) →
  0 < N → usable_temperature T → square N alloy → binary alloy →
  valid_draws N d → (E <= 0)%Q →
  ∃ atom1 atom2 alloy',
    np.getitem alloy (random_atom d).1 (random_atom d).2 = Some atom1 ∧
    np.getitem alloy (select_neighbour N d).1 (select_neighbour N d).2
      = Some atom2 ∧
    MC_swap np_exp alloy N E (float_Q T) d = Some alloy' ∧
    exchange alloy (random_atom d) (select_neighbour N d) atom1 atom2
      = Some alloy' ∧
    exchanged alloy alloy' (random_atom d) (select_neighbour N d).
Proof.
  intros Hexp HN [HT _] Hsq Hbin Hd HE.
  destruct (energy_multiple N alloy E d HN Hsq Hbin Hd)
    as (atom1 & atom2 & e & k & Hg1 & Hg2 & He & Hek & Hk & _).
  destruct (MC_swap_cases np_exp N alloy E (float_Q T) d HN HT Hsq Hd)
    as (atom1' & atom2' & e' & Hg1' & Hg2' & He' & Hstep).
  rewrite Hg1 in Hg1'. rewrite Hg2 in Hg2'.
  injection Hg1' as <-. injection Hg2' as <-.
  rewrite He in He'. injection He' as <-.
  pose proof (select_neighbour_on_lattice N d HN Hd) as Hs2.
  assert (on_lattice N (random_atom d)) as Hs1
    by (destruct Hd as (? & ? & _); by split).
  destruct (exchange_spec N alloy _ _ atom1 atom2 Hsq Hs1 Hs2 Hg1 Hg2)
    as (alloy' & Hex & _ & _ & Hn1 & Hn2 & _).
  exists atom1, atom2, alloy'.
  split; [done|]. split; [done|].
  assert (Qlt_bool e 0
          || Qlt_bool (uniform d) (np_exp (- e / (k_B * float_Q T))%Q)
          = true) as Hcond.
  { apply orb_true_iff.
    destruct (Qlt_le_dec e 0) as [Hlt|Hge].
    - left. by apply Qlt_bool_iff.
    - right. apply Qlt_bool_iff.
      assert (e <= 0)%Q as Hle.
      { rewrite Hek. rewrite <- (Qmult_0_l (inject_Z (2 * k))).
        apply Qmult_le_compat_r; [done|].
        rewrite <- (Zle_Qle 0). lia. }
      assert (e == 0)%Q as H0 by (by apply Qle_antisym).
      rewrite Hexp.
      + by destruct Hd as (_ & _ & _ & _ & Hu1).
      + rewrite H0. unfold Qdiv. ring. }
  rewrite Hstep, Hcond.
  split; [done|]. split; [done|]. split; congruence.
Qed.

Lemma nonpositive_E_always_swaps_witness :
  ∃ atom1 atom2 alloy',
    np.getitem sample_alloy 0 0 = Some atom1 ∧
    np.getitem sample_alloy 1 0 = Some atom2 ∧
    MC_swap exp_taylor sample_alloy 3 (-1 # 10) (float_Q room) sample_draws
      = Some alloy' ∧
    exchange sample_alloy (0, 0) (1, 0) atom1 atom2 = Some alloy' ∧
    exchanged sample_alloy alloy' (0, 0) (1, 0).
Proof.
  apply (nonpositive_E_always_swaps exp_taylor 3 sample_alloy (-1 # 10) room
           sample_draws).
  - apply exp_taylor_zero.
  - lia.
  - apply room_usable.
  - apply sample_alloy_square.
  - apply sample_alloy_binary.
  - apply sample_draws_valid.
  - unfold Qle. simpl. lia.
Defined.

(** ** Create_alloy *)

Lemma random_matrix_builds (permutation : list Z → list Z) N n_a n_b :
  (∀ l, permutation l ≡ₚ l) →
  0 ≤ N → 0 ≤ n_a → 0 ≤ n_b → n_a + n_b = N ^ 2 →
  ∃ alloy,
    random_matrix permutation N n_a n_b = Some alloy ∧
    square N alloy ∧ binary alloy ∧
    count_cells 1 alloy = Z.to_nat n_a ∧
    count_cells 0 alloy = Z.to_nat n_b.
Proof.
  intros Hperm HN Ha Hb Hsum. unfold random_matrix, np.ones, np.zeros.
  rewrite !decide_False by lia. simpl.
  set (flat := replicate (Z.to_nat n_a) 1 ++ replicate (Z.to_nat n_b) 0).
  assert (np.reshape (permutation flat) N
          = Some (np.split_rows (Z.to_nat N) (Z.to_nat N) (permutation flat)))
    as Hre.
  { unfold np.reshape. rewrite decide_True; [done|]. split; [done|].
    rewrite (Permutation_length (Hperm flat)). unfold flat.
    rewrite length_app, !length_replicate. lia. }
  eexists. split; [exact Hre|].
  destruct (reshape_spec _ _ _ Hre) as (Hsq & Hcount & Hall).
  split; [done|]. split; [|split].
  - apply Hall. rewrite Hperm. unfold flat.
    apply Forall_app; split; apply Forall_replicate; auto.
  - rewrite Hcount. unfold count_row. rewrite Hperm. unfold flat.
    rewrite sum_list_with_app.
    fold (count_row 1 (replicate (Z.to_nat n_a) 1)).
    fold (count_row 1 (replicate (Z.to_nat n_b) 0)).
    rewrite !count_row_replicate. unfold indicator. simpl. lia.
  - rewrite Hcount. unfold count_row. rewrite Hperm. unfold flat.
    rewrite sum_list_with_app.
    fold (count_row 0 (replicate (Z.to_nat n_a) 1)).
    fold (count_row 0 (replicate (Z.to_nat n_b) 0)).
    rewrite !count_row_replicate. unfold indicator. simpl. lia.
Qed.

Lemma atom_counts_binary64_4_half :
  atom_counts_binary64 4 binary64.half = Some (8, 8).
Proof. vm_compute. reflexivity. Qed.

(** X8.  With line 26 evaluated in binary64: when the two truncated counts
    [n_a = int(N**2*Xa)] and [n_b = int(N**2*(1-Xa))] are non-negative and
    add up to [N²], [Create_alloy] returns, for every number of iterations,
    an N x N lattice of zeros and ones with exactly [n_a] ones and [n_b]
    zeros (for a float temperature [T > 0] whose binary64 product [kT] is
    not zero). *)
Theorem Create_alloy_binary64_composition (np_exp : Q → Q)
    (permutation : list Z → list Z) (rng : nat → draws)
    N (Xa : SpecFloat.spec_float) (n_a n_b n : Z)
    (T : SpecFloat.spec_float) (E : Q) :
  (∀ l, permutation l ≡ₚ l) → (∀ i, valid_draws N (rng i)) →
  0 < N → usable_temperature T →
  atom_counts_binary64 N Xa = Some (n_a, n_b) →
  0 ≤ n_a → 0 ≤ n_b → n_a + n_b = N ^ 2 →
  ∃ alloy,
    Create_alloy_binary64 np_exp permutation rng N Xa n (float_Q T) E
      = Some alloy ∧
    square N alloy ∧ binary alloy ∧
    count_cells 1 alloy = Z.to_nat n_a ∧
    count_cells 0 alloy = Z.to_nat n_b.
Proof.
  intros Hperm Hrng HN [HT _] Hcounts Ha Hb Hsum.
  destruct (random_matrix_builds permutation N n_a n_b Hperm ltac:(lia)
              Ha Hb Hsum) as (alloy0 & Hinit & Hsq0 & Hbin0 & Hc1 & Hc0).
  destruct (swap_loop_preserves np_exp rng N E (float_Q T) (Z.to_nat n) HN HT
              Hrng 0%nat alloy0 Hsq0) as (alloy & Hloop & Hsq & Hcount & Hbin).
  exists alloy. unfold Create_alloy_binary64, initial_alloy_binary64.
  rewrite Hcounts. simpl. rewrite Hinit. simpl.
  split; [done|]. split; [done|]. split; [auto|].
  by rewrite !Hcount.
Qed.

Lemma Create_alloy_binary64_composition_witness :
  ∃ alloy,
    Create_alloy_binary64 exp_taylor (λ l, l) (λ _, sample_draws) 4
      binary64.half 3 (float_Q room) (-1 # 10) = Some alloy ∧
    square 4 alloy ∧ binary alloy ∧
    count_cells 1 alloy = Z.to_nat 8 ∧
    count_cells 0 alloy = Z.to_nat 8.
Proof.
  apply (Create_alloy_binary64_composition exp_taylor (λ l, l)
           (λ _, sample_draws) 4 binary64.half 8 8 3 room (-1 # 10)).
  - intros l. reflexivity.
  - intros _. apply sample_draws_valid_4.
  - lia.
  - apply room_usable.
  - apply atom_counts_binary64_4_half.
  - lia.
  - lia.
  - reflexivity.
Defined.

(** X9.  With line 26 evaluated in binary64: when one of the two truncated
    counts is negative, or they do not add up to [N²], or [int] is applied
    to an infinity or a NaN, [Create_alloy] raises before any swap step,
    whatever [n], [T], [E] and the random draws. *)
Theorem Create_alloy_binary64_raises (np_exp : Q → Q)
    (permutation : list Z → list Z) (rng : nat → draws)
    N (Xa : SpecFloat.spec_float) (n : Z) (T E : Q) :
  (∀ l, permutation l ≡ₚ l) →
  (∀ n_a n_b, atom_counts_binary64 N Xa = Some (n_a, n_b) →
              n_a < 0 ∨ n_b < 0 ∨ n_a + n_b ≠ N ^ 2) →
  Create_alloy_binary64 np_exp permutation rng N Xa n T E = None.
Proof.
  intros Hperm Hbad. unfold Create_alloy_binary64, initial_alloy_binary64.
  destruct (atom_counts_binary64 N Xa) as [[n_a n_b]|]; simpl; [|done].
  destruct (decide (n_a < 0)) as [Ha|Ha].
  { unfold random_matrix, np.ones. by rewrite decide_True by done. }
  destruct (decide (n_b < 0)) as [Hb|Hb].
  { unfold random_matrix, np.ones, np.zeros.
    rewrite (decide_False (P := n_a < 0)) by done. simpl.
    by rewrite (decide_True (P := n_b < 0)) by done. }
  rewrite (random_matrix_raises permutation N n_a n_b Hperm); [done|lia|lia|].
  destruct (Hbad n_a n_b eq_refl) as [?|[?|?]]; [lia|lia|done].
Qed.

Lemma Create_alloy_binary64_raises_witness :
  Create_alloy_binary64 exp_taylor (λ l, l) (λ _, sample_draws) 10
    binary64.dot57 5 300 (-1 # 10) = None.
Proof.
  apply (Create_alloy_binary64_raises exp_taylor (λ l, l)
           (λ _, sample_draws) 10 binary64.dot57 5 300 (-1 # 10)).
  - intros l. reflexivity.
  - intros n_a n_b Hc. rewrite atom_counts_binary64_dot57 in Hc.
    injection Hc as <- <-. right. right. lia.
Defined.

Lemma int_le_minus_one (x : Q) : (x <= -1)%Q → int x < 0.
Proof.
  destruct x as [p q]. unfold Qle, int. simpl. intros Hp.
  assert (0 < (- p) ÷ Z.pos q) as Hpos.
  { rewrite Z.quot_div_nonneg by lia.
    apply Z.div_str_pos. lia. }
  rewrite Z.quot_opp_l in Hpos by lia. lia.
Qed.

(** X10.  When [N² · Xa <= -1] the call [np.ones(n_a)] receives a negative
    length, and when [N² · (1 - Xa) <= -1] the call [np.zeros(n_b)] does:
    [Create_alloy] raises. *)
Theorem Create_alloy_raises_outside_unit (np_exp : Q → Q)
    (permutation : list Z → list Z) (rng : nat → draws)
    N (Xa : Q) (n : Z) (T E : Q) :
  (inject_Z (N ^ 2) * Xa <= -1)%Q ∨ (inject_Z (N ^ 2) * (1 - Xa) <= -1)%Q →
  Create_alloy np_exp permutation rng N Xa n T E = None.
Proof.
  intros Hout. unfold Create_alloy, initial_alloy, random_matrix.
  destruct Hout as [Ha|Hb].
  - apply int_le_minus_one in Ha. unfold np.ones.
    by rewrite decide_True by done.
  - apply int_le_minus_one in Hb. unfold np.ones, np.zeros.
    rewrite (decide_True (P := int _ < 0)) by done.
    by destruct (decide _).
Qed.

Lemma Create_alloy_raises_outside_unit_witness :
  Create_alloy exp_taylor (λ l, l) (λ _, sample_draws) 2 (3 # 2) 0 300
    (-1 # 10) = None.
Proof.
  apply (Create_alloy_raises_outside_unit exp_taylor (λ l, l)
           (λ _, sample_draws) 2 (3 # 2) 0 300 (-1 # 10)).
  right. unfold Qle. simpl. lia.
Defined.

(** X11.  For [N = 0] the initial lattice is the empty array; [Create_alloy]
    returns it when [n <= 0], and raises when [n >= 1], because
    [randint(0, 0, 2)] raises in the first swap step. *)
Theorem Create_alloy_empty_lattice (np_exp : Q → Q)
    (permutation : list Z → list Z) (rng : nat → draws)
    (Xa : Q) (n : Z) (T E : Q) :
  (∀ l, permutation l ≡ₚ l) →
  initial_alloy permutation 0 Xa = Some [] ∧
  (n ≤ 0 → Create_alloy np_exp permutation rng 0 Xa n T E = Some []) ∧
  (1 ≤ n → Create_alloy np_exp permutation rng 0 Xa n T E = None).
Proof.
  intros Hperm.
  assert (initial_alloy permutation 0 Xa = Some []) as Hinit.
  { destruct (initial_alloy_integral permutation 0 Xa 0 Hperm)
      as (alloy & Hinit & [Hlen _] & _); [lia|lia| |].
    - destruct Xa as [p q]. unfold Qeq. simpl. lia.
    - rewrite Hinit. f_equal. by destruct alloy. }
  split; [done|]. unfold Create_alloy. rewrite Hinit. simpl. split.
  - intros Hn. by replace (Z.to_nat n) with 0%nat by lia.
  - intros Hn. destruct (Z.to_nat n) as [|k] eqn:Hk; [lia|]. done.
Qed.

Lemma Create_alloy_empty_lattice_witness :
  initial_alloy (λ l, l) 0 (1 # 2) = Some [] ∧
  (0 ≤ 0 →
   Create_alloy exp_taylor (λ l, l) (λ _, sample_draws) 0 (1 # 2) 0 300
     (-1 # 10) = Some []) ∧
  (1 ≤ 0 →
   Create_alloy exp_taylor (λ l, l) (λ _, sample_draws) 0 (1 # 2) 0 300
     (-1 # 10) = None).
Proof.
  apply (Create_alloy_empty_lattice exp_taylor (λ l, l) (λ _, sample_draws)
           (1 # 2) 0 300 (-1 # 10)).
  intros l. reflexivity.
Defined.

(** ** test2D *)

Lemma filter_length_ext {A} (P Q : A → Prop)
    `{∀ x, Decision (P x)} `{∀ x, Decision (Q x)} (l : list A) :
  Forall (λ x, P x ↔ Q x) l →
  length (filter P l) = length (filter Q l).
Proof.
  induction 1 as [|x l Hiff _ IH]; [done|].
  rewrite !filter_cons. repeat case_decide; simpl; try lia; tauto.
Qed.

Lemma filter_length_none {A} (P : A → Prop) `{∀ x, Decision (P x)}
    (l : list A) :
  Forall (λ x, ¬ P x) l → length (filter P l) = 0%nat.
Proof.
  induction 1 as [|x l Hx _ IH]; [done|].
  rewrite filter_cons. by case_decide.
Qed.

Lemma filter_length_all {A} (P : A → Prop) `{∀ x, Decision (P x)}
    (l : list A) :
  Forall P l → length (filter P l) = length l.
Proof.
  induction 1 as [|x l Hx _ IH]; [done|].
  rewrite filter_cons. case_decide; simpl; [by rewrite IH | done].
Qed.

(** A site never has more than two unlike cells among the four it reads,
    two of them being the site itself. *)
Lemma unlike_neighbours_le_2 N (alloy : list (list Z)) s :
  square N alloy → binary alloy → on_lattice N s →
  ∃ u, unlike_neighbours alloy N s = Some u ∧ 0 ≤ u ≤ 2.
Proof.
  intros Hsq Hbin [Hi Hj]. destruct s as [i j]. simpl in *.
  assert (0 < N) as HN by lia.
  destruct (unlike_neighbours_spec N alloy i j ltac:(lia) Hsq Hbin Hi Hj)
    as (v & b & Hv & Hb & Hv01 & _ & ->).
  destruct (Bonds_self N alloy i j v HN Hsq Hi Hj Hv)
    as (up & left & Hup & Hleft & HB).
  rewrite Hb in HB. injection HB as ->.
  pose proof (getitem_binary _ _ _ _ Hbin Hup).
  pose proof (getitem_binary _ _ _ _ Hbin Hleft).
  eexists. split; [done|]. unfold unlike_bonds.
  destruct Hv01 as [-> | ->]; simpl; lia.
Qed.

(** X12.  For every binary N x N lattice, buckets 3 and 4 of the observed
    histogram are 0: since the "down" and "right" cells read by the scan are
    the site itself, no site is tallied with more than two unlike
    neighbours. *)
Theorem observed_high_buckets_empty N (alloy : list (list Z)) :
  square N alloy → binary alloy →
  ∃ n, observed alloy N = Some n ∧ n !! 3%nat = Some 0 ∧ n !! 4%nat = Some 0.
Proof.
  intros Hsq Hbin.
  destruct (observed_spec N alloy Hsq Hbin) as (n & Hobs & _ & _ & Hk).
  assert (∀ k, 3 ≤ k → sites_with_unlike alloy N k = 0) as Hhigh.
  { intros k Hk3. unfold sites_with_unlike.
    rewrite filter_length_none; [done|].
    eapply Forall_impl; [apply all_sites_on_lattice|].
    intros s Hs Hu.
    destruct (unlike_neighbours_le_2 N alloy s Hsq Hbin Hs) as (u & Hu' & ?).
    rewrite Hu in Hu'. injection Hu' as <-. lia. }
  exists n. split; [done|].
  pose proof (Hk 3 ltac:(lia)) as H3. pose proof (Hk 4 ltac:(lia)) as H4.
  rewrite Hhigh in H3, H4 by lia. done.
Qed.

Lemma observed_high_buckets_empty_witness :
  ∃ n, observed sample_alloy 3 = Some n ∧
       n !! 3%nat = Some 0 ∧ n !! 4%nat = Some 0.
Proof.
  apply (observed_high_buckets_empty 3 sample_alloy).
  - apply sample_alloy_square.
  - apply sample_alloy_binary.
Defined.

Lemma getitem_pure v (alloy : list (list Z)) r c x :
  pure v alloy → np.getitem alloy r c = Some x → x = v.
Proof.
  intros Hpure Hget. unfold np.getitem in Hget.
  destruct (np.index _ r) as [i|]; simplify_option_eq.
  match goal with
  | Hrow : alloy !! i = Some ?row, Hv : ?row !! _ = Some x |- _ =>
      pose proof (Forall_lookup_1 _ _ _ _ Hpure Hrow) as Hr;
      apply (Forall_lookup_1 _ _ _ _ Hr Hv)
  end.
Qed.

Lemma pure_binary v (alloy : list (list Z)) :
  v = 0 ∨ v = 1 → pure v alloy → binary alloy.
Proof.
  intros Hv Hpure. eapply Forall_impl; [exact Hpure|].
  intros row Hrow. eapply Forall_impl; [exact Hrow|].
  simpl. intros x ->. done.
Qed.

(** X13.  For an N x N lattice whose cells all hold the same species [v],
    the observed histogram is [N², 0, 0, 0, 0], and it coincides entry by
    entry with the binomial histogram computed for [Xa = v]. *)
Theorem pure_lattice_histograms N (alloy : list (list Z)) v :
  square N alloy → v = 0 ∨ v = 1 → pure v alloy →
  observed alloy N = Some [N * N; 0; 0; 0; 0] ∧
  ∃ p, prob (inject_Z v) N = Some p ∧
       Forall2 (λ x y, inject_Z x == y)%Q [N * N; 0; 0; 0; 0] p.
Proof.
  intros Hsq Hv Hpure. pose proof (pure_binary v alloy Hv Hpure) as Hbin.
  assert (0 ≤ N) as HN0 by (destruct Hsq as [<- _]; lia).
  split.
  - destruct (observed_spec N alloy Hsq Hbin) as (n & Hobs & Hlen & _ & Hk).
    assert (Forall (λ s, unlike_neighbours alloy N s = Some 0) (all_sites N))
      as Hzero.
    { eapply Forall_impl; [apply all_sites_on_lattice|].
      intros [i j] [Hi Hj]. simpl in Hi, Hj.
      destruct (unlike_neighbours_spec N alloy i j ltac:(lia) Hsq Hbin Hi Hj)
        as (x & b & Hx & Hb & _ & _ & ->).
      destruct (Bonds_self N alloy i j x ltac:(lia) Hsq Hi Hj Hx)
        as (up & left & Hup & Hleft & HB).
      rewrite Hb in HB. injection HB as ->.
      apply (getitem_pure v) in Hx, Hup, Hleft; try done. subst.
      unfold unlike_bonds. destruct Hv as [-> | ->]; reflexivity. }
    assert (sites_with_unlike alloy N 0 = N * N) as H0.
    { unfold sites_with_unlike. rewrite filter_length_all by done.
      by apply all_sites_length. }
    assert (∀ k, 1 ≤ k → sites_with_unlike alloy N k = 0) as Hpos.
    { intros k Hk1. unfold sites_with_unlike.
      rewrite filter_length_none; [done|].
      eapply Forall_impl; [exact Hzero|].
      simpl. intros s Hs Hu. rewrite Hs in Hu. injection Hu as <-. lia. }
    pose proof (Hk 0 ltac:(lia)) as E0. pose proof (Hk 1 ltac:(lia)) as E1.
    pose proof (Hk 2 ltac:(lia)) as E2. pose proof (Hk 3 ltac:(lia)) as E3.
    pose proof (Hk 4 ltac:(lia)) as E4.
    rewrite H0 in E0. rewrite Hpos in E1, E2, E3, E4 by lia.
    rewrite Hobs. f_equal. five_cells n. simpl in *. congruence.
  - eexists. split; [apply prob_entries|].
    assert (inject_Z (N * N) == inject_Z (Z.abs N) ^ 2)%Q as Hsqr.
    { rewrite abs_square_Q. by replace (N ^ 2) with (N * N) by lia. }
    destruct Hv as [-> | ->];
      repeat (constructor;
              [cbv beta; rewrite ?Hsqr; unfold Frac; simpl; ring|]);
      constructor.
Qed.

Lemma pure_lattice_histograms_witness :
  observed [[1; 1]; [1; 1]] 2 = Some [2 * 2; 0; 0; 0; 0] ∧
  ∃ p, prob (inject_Z 1) 2 = Some p ∧
       Forall2 (λ x y, inject_Z x == y)%Q [2 * 2; 0; 0; 0; 0] p.
Proof.
  apply (pure_lattice_histograms 2 [[1; 1]; [1; 1]] 1).
  - split; [reflexivity | repeat constructor].
  - right. reflexivity.
  - repeat first [apply List.Forall_nil | apply List.Forall_cons]; reflexivity.
Defined.

Lemma getitem_invert (alloy : list (list Z)) r c :
  np.getitem (invert alloy) r c = (λ v, 1 - v) <$> np.getitem alloy r c.
Proof.
  unfold np.getitem, invert. rewrite length_fmap.
  destruct (np.index _ r) as [i|]; simpl; [|done].
  rewrite list_lookup_fmap. destruct (alloy !! i) as [row|]; simpl; [|done].
  rewrite length_fmap.
  destruct (np.index _ c) as [j|]; simpl; [|done].
  by rewrite list_lookup_fmap.
Qed.

Lemma invert_square N (alloy : list (list Z)) :
  square N alloy → square N (invert alloy).
Proof.
  intros [Hlen Hrows]. unfold invert. split.
  - by rewrite length_fmap.
  - apply Forall_fmap. eapply Forall_impl; [exact Hrows|].
    simpl. intros row Hrow. by rewrite length_fmap.
Qed.

Lemma invert_binary (alloy : list (list Z)) :
  binary alloy → binary (invert alloy).
Proof.
  intros Hbin. unfold invert. apply Forall_fmap.
  eapply Forall_impl; [exact Hbin|].
  simpl. intros row Hrow. apply Forall_fmap.
  eapply Forall_impl; [exact Hrow|]. simpl. intros x Hx. lia.
Qed.

Lemma Bonds_invert (alloy : list (list Z)) N r c b :
  Bonds alloy N r c = Some b → Bonds (invert alloy) N r c = Some (4 - b).
Proof.
  unfold Bonds. rewrite !getitem_invert.
  destruct (np.getitem alloy (r mod N) c); simpl; [|done].
  destruct (np.getitem alloy ((r - 2) mod N) c); simpl; [|done].
  destruct (np.getitem alloy r (c mod N)); simpl; [|done].
  destruct (np.getitem alloy r ((c - 2) mod N)); simpl; [|done].
  intros [= <-]. f_equal. lia.
Qed.

Lemma unlike_neighbours_invert N (alloy : list (list Z)) s :
  square N alloy → binary alloy → on_lattice N s →
  unlike_neighbours (invert alloy) N s = unlike_neighbours alloy N s.
Proof.
  intros Hsq Hbin [Hi Hj]. destruct s as [i j]. simpl in *.
  destruct (unlike_neighbours_spec N alloy i j ltac:(lia) Hsq Hbin Hi Hj)
    as (v & b & Hv & Hb & Hv01 & _ & ->).
  destruct (unlike_neighbours_spec N (invert alloy) i j ltac:(lia)
              (invert_square N alloy Hsq) (invert_binary alloy Hbin) Hi Hj)
    as (v' & b' & Hv' & Hb' & _ & _ & ->).
  rewrite getitem_invert, Hv in Hv'. injection Hv' as <-.
  rewrite (Bonds_invert alloy N i j b Hb) in Hb'. injection Hb' as <-.
  f_equal. unfold unlike_bonds. destruct Hv01 as [-> | ->]; simpl; lia.
Qed.

(** X14.  Exchanging the two species in every cell of a binary N x N lattice
    leaves the observed histogram unchanged. *)
Theorem observed_invert N (alloy : list (list Z)) :
  square N alloy → binary alloy →
  ∃ n, observed alloy N = Some n ∧ observed (invert alloy) N = Some n.
Proof.
  intros Hsq Hbin.
  destruct (observed_spec N alloy Hsq Hbin) as (n & Hobs & Hlen & _ & Hk).
  destruct (observed_spec N (invert alloy) (invert_square N alloy Hsq)
              (invert_binary alloy Hbin)) as (n' & Hobs' & Hlen' & _ & Hk').
  exists n. split; [done|]. rewrite Hobs'. f_equal.
  assert (∀ k, sites_with_unlike (invert alloy) N k
               = sites_with_unlike alloy N k) as Hsame.
  { intros k. unfold sites_with_unlike. f_equal.
    apply filter_length_ext.
    eapply Forall_impl; [apply all_sites_on_lattice|].
    intros s Hs. by rewrite (unlike_neighbours_invert N alloy s Hsq Hbin Hs). }
  pose proof (Hk 0 ltac:(lia)) as E0. pose proof (Hk' 0 ltac:(lia)) as F0.
  pose proof (Hk 1 ltac:(lia)) as E1. pose proof (Hk' 1 ltac:(lia)) as F1.
  pose proof (Hk 2 ltac:(lia)) as E2. pose proof (Hk' 2 ltac:(lia)) as F2.
  pose proof (Hk 3 ltac:(lia)) as E3. pose proof (Hk' 3 ltac:(lia)) as F3.
  pose proof (Hk 4 ltac:(lia)) as E4. pose proof (Hk' 4 ltac:(lia)) as F4.
  rewrite Hsame in F0, F1, F2, F3, F4.
  five_cells n. five_cells n'. simpl in *. congruence.
Qed.

Lemma observed_invert_witness :
  ∃ n, observed sample_alloy 3 = Some n ∧
       observed (invert sample_alloy) 3 = Some n.
Proof.
  apply (observed_invert 3 sample_alloy).
  - apply sample_alloy_square.
  - apply sample_alloy_binary.
Defined.

(** X15.  The binomial histogram is the same for the fractions [Xa] and
    [1 - Xa], entry by entry, in exact arithmetic. *)
Theorem prob_species_symmetric (Xa : Q) (N : Z) :
  ∃ p p',
    prob Xa N = Some p ∧ prob (1 - Xa) N = Some p' ∧ Forall2 Qeq p p'.
Proof.
  do 2 eexists. split; [apply prob_entries|]. split; [apply prob_entries|].
  repeat (constructor; [unfold Frac; simpl; ring|]). constructor.
Qed.

Lemma Frac_nonneg (Xa : Q) i :
  (0 <= Xa)%Q → (Xa <= 1)%Q → 0 ≤ i ≤ 4 → (0 <= Frac Xa i)%Q.
Proof.
  intros H0 H1 Hi.
  assert (0 <= 1 - Xa)%Q as Hb.
  { unfold Qminus. rewrite <- (Qplus_opp_r Xa).
    by apply Qplus_le_compat; [|apply Qle_refl]. }
  assert (∀ x k, (0 <= x)%Q → 0 ≤ k → (0 <= x ^ k)%Q) as Hpow.
  { intros x k Hx Hk. by apply Qpower_0_le. }
  unfold Frac.
  apply (Qplus_le_compat 0 _ 0); apply Qmult_le_0_compat;
    try apply Qmult_le_0_compat; try apply Hpow; try done; lia.
Qed.

(** X16.  For [Xa] in [0, 1] every entry of the binomial histogram is
    non-negative. *)
Theorem prob_nonnegative (Xa : Q) (N : Z) :
  (0 <= Xa)%Q → (Xa <= 1)%Q →
  ∃ p, prob Xa N = Some p ∧ Forall (λ x, 0 <= x)%Q p.
Proof.
  intros H0 H1. eexists. split; [apply prob_entries|].
  assert (0 <= inject_Z (Z.abs N) ^ 2)%Q as Hn.
  { apply Qpower_0_le. rewrite <- (Zle_Qle 0). lia. }
  repeat (constructor;
          [apply Qmult_le_0_compat; [apply Qmult_le_0_compat|];
           [done | apply Frac_nonneg; done || lia | exact Hn]|]).
  constructor.
Qed.

Lemma prob_nonnegative_witness :
  ∃ p, prob (1 # 3) 10 = Some p ∧ Forall (λ x, 0 <= x)%Q p.
Proof.
  apply (prob_nonnegative (1 # 3) 10).
  - unfold Qle. simpl. lia.
  - unfold Qle. simpl. lia.
Defined.

(** *** The species tallies of the scan *)

Lemma filter_length_sum {A} (P : A → Prop) `{∀ x, Decision (P x)}
    (l : list A) :
  length (filter P l)
  = sum_list_with (λ x, if decide (P x) then 1%nat else 0%nat) l.
Proof.
  induction l as [|x l IH]; [done|].
  rewrite filter_cons. simpl. case_decide; simpl; lia.
Qed.

Lemma sum_list_with_fmap {A B} (h : B → nat) (g : A → B) (l : list A) :
  sum_list_with h (g <$> l) = sum_list_with (λ a, h (g a)) l.
Proof. induction l as [|a l IH]; [done|]. simpl. f_equal. exact IH. Qed.

Lemma sum_list_with_bind {A B} (h : B → nat) (f : A → list B) (l : list A) :
  sum_list_with h (l ≫= f) = sum_list_with (λ a, sum_list_with h (f a)) l.
Proof.
  induction l as [|a l IH]; [done|].
  rewrite bind_cons, sum_list_with_app, IH. done.
Qed.

Lemma sum_list_with_ext {A} (f g : A → nat) (l : list A) :
  Forall (λ x, f x = g x) l → sum_list_with f l = sum_list_with g l.
Proof. induction 1 as [|x l Hx _ IH]; simpl; [done|]. by rewrite Hx, IH. Qed.

Lemma sum_list_with_seq {A} (f : A → nat) (l : list A) :
  sum_list_with f l
  = sum_list_with (λ k, from_option f 0%nat (l !! k)) (seq 0 (length l)).
Proof.
  induction l as [|a l IH]; [done|].
  change (f a + sum_list_with f l
          = f a + sum_list_with (λ k, from_option f 0%nat ((a :: l) !! k))
                    (seq 1 (length l)))%nat.
  f_equal. rewrite IH, <- fmap_S_seq, sum_list_with_fmap. done.
Qed.

Lemma sum_all_sites (h : Z * Z → nat) N :
  sum_list_with h (all_sites N)
  = sum_list_with
      (λ i, sum_list_with (λ j, h (Z.of_nat i, Z.of_nat j))
                          (seq 0 (Z.to_nat N)))
      (seq 0 (Z.to_nat N)).
Proof.
  unfold all_sites, range, seqZ.
  rewrite sum_list_with_bind, sum_list_with_fmap.
  apply sum_list_with_ext, Forall_true. intros i.
  rewrite !sum_list_with_fmap.
  apply sum_list_with_ext, Forall_true. intros j.
  by rewrite !Z.add_0_r.
Qed.

(** Counting the sites at which a value is read is counting the cells that
    hold it. *)
Lemma cells_at_count N (alloy : list (list Z)) v :
  square N alloy →
  length (filter (λ s, np.getitem alloy s.1 s.2 = Some v) (all_sites N))
  = count_cells v alloy.
Proof.
  intros Hsq. rewrite filter_length_sum, sum_all_sites.
  unfold count_cells. rewrite (sum_list_with_seq (count_row v) alloy).
  destruct Hsq as [Hlen Hrows].
  replace (length alloy) with (Z.to_nat N) by lia.
  apply sum_list_with_ext, Forall_forall. intros i Hi.
  apply elem_of_seq in Hi.
  destruct (lookup_lt_is_Some_2 alloy i) as [row Hrow]; [lia|].
  pose proof (Forall_lookup_1 _ _ _ _ Hrows Hrow) as Hrl. simpl in Hrl.
  rewrite Hrow. simpl. unfold count_row.
  rewrite (sum_list_with_seq (indicator v) row).
  replace (length row) with (Z.to_nat N) by lia.
  apply sum_list_with_ext, Forall_forall. intros j Hj.
  apply elem_of_seq in Hj. simpl.
  destruct (lookup_lt_is_Some_2 row j) as [x Hx]; [lia|].
  rewrite (getitem_index N alloy (Z.of_nat i) (Z.of_nat j) i j);
    [|by split|..].
  - rewrite Hrow. simpl. rewrite Hx. simpl. unfold indicator.
    repeat case_decide; simplify_eq; done.
  - rewrite index_in_range by lia. by rewrite Nat2Z.id.
  - rewrite index_in_range by lia. by rewrite Nat2Z.id.
Qed.

Lemma total_five (h : list Z) :
  length h = 5%nat →
  total h = h !!! Z.to_nat 0 + h !!! Z.to_nat 1 + h !!! Z.to_nat 2
            + h !!! Z.to_nat 3 + h !!! Z.to_nat 4.
Proof. intros Hl. five_cells h. unfold total. simpl. lia. Qed.

Lemma scan_species_invariant N (alloy : list (list Z)) (ss : list (Z * Z)) :
  square N alloy → binary alloy → Forall (on_lattice N) ss →
  ∀ st : list Z * list Z,
  length st.1 = 5%nat → length st.2 = 5%nat →
  ∃ st',
    for_in ss (λ s, tally alloy N s.1 s.2) st = Some st' ∧
    length st'.1 = 5%nat ∧ length st'.2 = 5%nat ∧
    total st'.1 = total st.1 + Z.of_nat (length (filter
      (λ s, np.getitem alloy s.1 s.2 = Some 0) ss)) ∧
    total st'.2 = total st.2 + Z.of_nat (length (filter
      (λ s, np.getitem alloy s.1 s.2 = Some 1) ss)).
Proof.
  intros Hsq Hbin Hss.
  induction Hss as [|[i j] ss [Hi Hj] _ IH]; intros st Hl1 Hl2.
  - exists st. simpl. repeat split; try done; lia.
  - simpl in Hi, Hj. assert (1 ≤ N) as HN by lia.
    destruct (tally_step N alloy i j st HN Hsq Hbin Hi Hj Hl1 Hl2)
      as (v & b & st1 & Hv & Hb & Hv01 & Hb04 & Hstep & Hl1' & Hl2' & _ & Hk).
    destruct (IH st1 Hl1' Hl2') as (st' & Hloop & Hl1'' & Hl2'' & Ht1 & Ht2).
    exists st'. simpl. rewrite Hstep. simpl.
    split; [done|]. split; [done|]. split; [done|].
    rewrite Ht1, Ht2, !filter_cons. simpl. rewrite Hv.
    rewrite (total_five st1.1), (total_five st1.2) by done.
    rewrite (total_five st.1), (total_five st.2) by done.
    destruct (Hk 0 ltac:(lia)) as [A0 B0]. destruct (Hk 1 ltac:(lia)) as [A1 B1].
    destruct (Hk 2 ltac:(lia)) as [A2 B2]. destruct (Hk 3 ltac:(lia)) as [A3 B3].
    destruct (Hk 4 ltac:(lia)) as [A4 B4].
    rewrite A0, A1, A2, A3, A4, B0, B1, B2, B3, B4.
    destruct Hv01 as [-> | ->]; five_cases b;
      repeat (first [ rewrite decide_True by (done || lia)
                    | rewrite decide_False by (done || lia) ]);
      simpl; lia.
Qed.

(** X17.  For every binary N x N lattice the scan of [test2D] leaves in
    [n_a] as many tallies as the lattice has cells equal to 0, and in [n_b]
    as many as it has cells equal to 1. *)
Theorem scan_species_totals N (alloy : list (list Z)) :
  square N alloy → binary alloy →
  ∃ n_a n_b,
    scan alloy N = Some (n_a, n_b) ∧
    total n_a = Z.of_nat (count_cells 0 alloy) ∧
    total n_b = Z.of_nat (count_cells 1 alloy).
Proof.
  intros Hsq Hbin.
  destruct (scan_species_invariant N alloy (all_sites N) Hsq Hbin
              (all_sites_on_lattice N) (replicate 5 0, replicate 5 0))
    as ([n_a n_b] & Hscan & _ & _ & Ha & Hb); [done..|].
  exists n_a, n_b. rewrite scan_all_sites. split; [done|].
  simpl in Ha, Hb. rewrite !(cells_at_count N) in * by done.
  unfold total in *. simpl in *. lia.
Qed.

Lemma scan_species_totals_witness :
  ∃ n_a n_b,
    scan sample_alloy 3 = Some (n_a, n_b) ∧
    total n_a = Z.of_nat (count_cells 0 sample_alloy) ∧
    total n_b = Z.of_nat (count_cells 1 sample_alloy).
Proof.
  apply (scan_species_totals 3 sample_alloy).
  - apply sample_alloy_square.
  - apply sample_alloy_binary.
Defined.

(** ** Degenerate selections and shape mismatch *)

(** X18.  The neighbour selected by a swap step is the drawn site itself
    exactly when the direction is 2 or 3, or the direction is 1 and
    [N <= 2], or the direction is 4 and the site's column is
    [(r - 2) mod N]. *)
Theorem self_selection N d :
  0 < N → valid_draws N d →
  (select_neighbour N d = random_atom d ↔
   random_neighbour d = 2 ∨ random_neighbour d = 3 ∨
   (random_neighbour d = 1 ∧ N ≤ 2) ∨
   (random_neighbour d = 4 ∧
    (random_atom d).2 = ((random_atom d).1 - 2) mod N)).
Proof.
  intros HN (Hr & Hc & Hdir & _). unfold select_neighbour.
  destruct (random_atom d) as [r c]. simpl in *.
  assert (random_neighbour d = 1 ∨ random_neighbour d = 2 ∨
          random_neighbour d = 3 ∨ random_neighbour d = 4) as Hcases by lia.
  destruct Hcases as [-> | [-> | [-> | ->]]]; simpl.
  - split.
    + intros [= Heq]. right. right. left. split; [done|].
      destruct (decide (N ≤ 2)) as [|Hbig]; [done|]. exfalso.
      rewrite <- (Z.mod_small r N) in Heq at 2 by lia.
      apply (mod_eq_in_range N) in Heq; lia.
    + intros [[=]|[[=]|[[_ HN2]|[[=] _]]]]. f_equal.
      assert (N = 1 ∨ N = 2) as [-> | ->] by lia.
      * assert (r = 0) as -> by lia. reflexivity.
      * assert (r = 0 ∨ r = 1) as [-> | ->] by lia; reflexivity.
  - rewrite Z.mod_small by lia. split; [auto|done].
  - rewrite Z.mod_small by lia. split; [auto|done].
  - split.
    + intros [= Heq]. right. right. right. split; [done|]. lia.
    + intros [[=]|[[=]|[[[=] _]|[_ ->]]]]. done.
Qed.

Lemma self_selection_witness :
  select_neighbour 3 (Draws (2, 0) 4 (1 # 2)) = (2, 0) ↔
   4 = 2 ∨ 4 = 3 ∨ (4 = 1 ∧ 3 ≤ 2) ∨ (4 = 4 ∧ 0 = (2 - 2) mod 3).
Proof.
  apply (self_selection 3 (Draws (2, 0) 4 (1 # 2))).
  - lia.
  - unfold valid_draws, Qle, Qlt. simpl. lia.
Defined.

Lemma for_in_raises {A S} (l : list A) (body : A → S → option S) x :
  x ∈ l → (∀ s, body x s = None) → ∀ s, for_in l body s = None.
Proof.
  intros Hin Hx. induction l as [|a l IH]; intros s.
  - by apply elem_of_nil in Hin.
  - simpl. apply elem_of_cons in Hin as [<- | Hin].
    + by rewrite Hx.
    + destruct (body a s); simpl; [by apply IH | done].
Qed.

(** X19.  When [test2D] is given an [N] larger than the side of the square
    lattice, the scan reads outside the array and raises. *)
Theorem observed_raises_on_small_lattice M N (alloy : list (list Z)) :
  square M alloy → M < N → observed alloy N = None.
Proof.
  intros [Hlen Hrows] HMN. assert (0 ≤ M) as HM by lia.
  unfold observed. rewrite scan_all_sites.
  rewrite (for_in_raises (all_sites N) _ (0, M)); [done| |].
  - unfold all_sites, range. apply list_elem_of_bind. exists 0. split.
    + apply list_elem_of_fmap. exists M. split; [done|].
      apply elem_of_seqZ. lia.
    + apply elem_of_seqZ. lia.
  - intros st. unfold tally. simpl. rewrite Z.mod_0_l by lia.
    assert (np.getitem alloy 0 M = None) as ->; [|done].
    unfold np.getitem. rewrite Hlen.
    destruct (np.index M 0) as [i|] eqn:Hi; simpl; [|done].
    destruct (alloy !! i) as [row|] eqn:Hrow; simpl; [|done].
    pose proof (Forall_lookup_1 _ _ _ _ Hrows Hrow) as Hrl. simpl in Hrl.
    rewrite Hrl. unfold np.index.
    rewrite !decide_False by lia. done.
Qed.

Lemma observed_raises_on_small_lattice_witness :
  observed sample_alloy 4 = None.
Proof.
  apply (observed_raises_on_small_lattice 3 4 sample_alloy).
  - apply sample_alloy_square.
  - lia.
Defined.
